(** * arch/arm/mm/ioremap.c: remapping I/O memory into the kernel address space

    A shallow embedding of the ARM ioremap code (32-bit, two-level page
    tables) and the properties of its granularity selection, request
    validation, page-table population, section teardown and the lazy
    [kvm_seq] synchronisation. *)

From Stdlib Require Import ZArith Lia List Bool.
From stdpp Require Import base option list gmap.

Local Open Scope Z_scope.

(** ** Machine words

    [unsigned long], [size_t] and [unsigned int] are all 32 bits wide on
    this architecture; values are kept in [Z] and every operation that can
    leave the range is wrapped explicitly. *)

Module Word.

Definition modulus : Z := 2 ^ 32.
Definition wrap (x : Z) : Z := x mod modulus.
Definition add (a b : Z) : Z := wrap (a + b).
Definition sub (a b : Z) : Z := wrap (a - b).
Definition mul (a b : Z) : Z := wrap (a * b).
Definition shl (a n : Z) : Z := wrap (Z.shiftl a n).
Definition not (a : Z) : Z := Z.lxor a (modulus - 1).
Definition in_range (x : Z) : Prop := 0 <= x < modulus.

End Word.

(** ** Constants of the page-table layout *)

Definition PAGE_SHIFT : Z := 12.
Definition PAGE_SIZE : Z := Z.shiftl 1 PAGE_SHIFT.
Definition PAGE_MASK : Z := Word.not (PAGE_SIZE - 1).
Definition PGDIR_SHIFT : Z := 21.
Definition PGDIR_SIZE : Z := Z.shiftl 1 PGDIR_SHIFT.
Definition PGDIR_MASK : Z := Word.not (PGDIR_SIZE - 1).
Definition PMD_SIZE : Z := Z.shiftl 1 PGDIR_SHIFT.
Definition PMD_MASK : Z := Word.not (PMD_SIZE - 1).
Definition SZ_1M : Z := 0x100000.
Definition SUPERSECTION_SHIFT : Z := 24.
Definition SUPERSECTION_SIZE : Z := Z.shiftl 1 SUPERSECTION_SHIFT.
Definition SUPERSECTION_MASK : Z := Word.not (SUPERSECTION_SIZE - 1).
Definition PTRS_PER_PTE : Z := 512.

Definition PMD_TYPE_MASK : Z := 3.
Definition PMD_TYPE_TABLE : Z := 1.
Definition PMD_TYPE_SECT : Z := 2.
Definition PMD_SECT_SUPER : Z := Z.shiftl 1 18.

Definition CPU_ARCH_ARMv6 : Z := 8.
Definition CR_XP : Z := Z.shiftl 1 23.

Definition VM_IOREMAP : Z := 1.
Definition VM_ARM_SECTION_MAPPING : Z := 0x80000000.
Definition ENOMEM : Z := 12.
Definition MAX_SECTIONS : Z := 4.
Definition NULL : Z := 0.

Definition __pfn_to_phys (pfn : Z) : Z := Word.shl pfn PAGE_SHIFT.
Definition __phys_to_pfn (paddr : Z) : Z := Z.shiftr paddr PAGE_SHIFT.
Definition PAGE_ALIGN (addr : Z) : Z :=
  Z.land (Word.add addr (PAGE_SIZE - 1)) PAGE_MASK.
Definition pgd_index (addr : Z) : Z := Z.shiftr addr PGDIR_SHIFT.
Definition __pte_index (addr : Z) : Z :=
  Z.land (Z.shiftr addr PAGE_SHIFT) (PTRS_PER_PTE - 1).

(** ** Platform: build configuration, CPU identification, memory types *)

Record mem_type := {
  prot_pte : Z;
  prot_l1 : Z;
  prot_sect : Z;
  domain : Z
}.

Record vm_struct := {
  vm_addr : Z;
  vm_size : Z;
  vm_flags : Z
}.

(** Modelled from the spec: the collaborators that are outside this file
    (the memory-type catalogue behind [get_mem_type], the CPU queries
    [cpu_architecture], [get_cr] and [cpu_is_xsc3], the build options
    [CONFIG_SMP] and [DOMAIN_IO], the vmalloc window and the policy by which
    [get_vm_area] picks an address) are the fields of a platform. *)
Record platform := {
  CONFIG_SMP : bool;
  DOMAIN_IO : Z;
  cpu_architecture : Z;
  get_cr : Z;
  cpu_is_xsc3 : bool;
  mem_types : list mem_type;
  VMALLOC_START : Z;
  VMALLOC_END : Z;
  vm_policy : list vm_struct -> Z -> option Z
}.

Definition get_mem_type (cfg : platform) (type : Z) : option mem_type :=
  if (0 <=? type) && (type <? Z.of_nat (length (mem_types cfg)))
  then mem_types cfg !! Z.to_nat type
  else None.

(** ** Granularity selection

    The three-way test of [__arm_ioremap_pfn_caller] (lines 285-297), used
    again per step by [__arm_multi_strided_ioremap] (lines 427-439) with the
    virtual stride in the place of the size. *)

Inductive granularity := Supersections | Sections | Pages.

Definition cpu_has_xp (cfg : platform) : bool :=
  ((CPU_ARCH_ARMv6 <=? cpu_architecture cfg)
   && negb (Z.land (get_cr cfg) CR_XP =? 0))
  || cpu_is_xsc3 cfg.

Definition supersection_test (cfg : platform) (pfn size addr : Z) : bool :=
  (DOMAIN_IO cfg =? 0) && cpu_has_xp cfg && (0x100000 <=? pfn)
  && (Z.land (Z.lor (Z.lor (__pfn_to_phys pfn) size) addr)
             (Word.not SUPERSECTION_MASK) =? 0).

Definition section_test (pfn size addr : Z) : bool :=
  Z.land (Z.lor (Z.lor (__pfn_to_phys pfn) size) addr) (Word.not PMD_MASK) =? 0.

Definition select_mapping (cfg : platform) (pfn size addr : Z) : granularity :=
  if CONFIG_SMP cfg then Pages
  else if supersection_test cfg pfn size addr then Supersections
  else if section_test pfn size addr then Sections
  else Pages.

(** The high-mapping check made before anything is reserved
    (lines 265-269 and 401-406). *)
Definition high_mapping_misaligned (pfn : Z) : bool :=
  (0x100000 <=? pfn)
  && negb (Z.land (__pfn_to_phys pfn) (Word.not SUPERSECTION_MASK) =? 0).

(** ** Kernel state *)

(** One first-level slot is the pair [pmd_t pgd[2]]: two hardware entries
    of 1MB each; a value of 0 is an empty entry. *)
Record mm_struct := {
  mm_pgd : gmap Z (Z * Z);
  mm_kvm_seq : Z
}.

Inductive event :=
| flush_cache_vunmap (start stop : Z)
| flush_tlb_kernel_range (start stop : Z)
| flush_cache_vmap (start stop : Z)
| flush_pmd_entry (pmd : Z)
| pmd_cleared (pmd : Z)
| pte_table_freed (table : Z)
| vm_area_released (addr : Z).

Record kstate := {
  init_pgd : gmap Z (Z * Z);          (* init_mm.pgd, by pgd_index *)
  init_kvm_seq : Z;                   (* init_mm.context.kvm_seq *)
  pte_tables : gmap Z (gmap Z Z);     (* leaf tables, by table then index *)
  free_pages : list Z;                (* pages the table allocator can give *)
  active_mm : mm_struct;              (* current->active_mm *)
  vmlist : list vm_struct;
  trace : list event                  (* maintenance operations, oldest first *)
}.

Definition set_init_pgd (f : gmap Z (Z * Z) -> gmap Z (Z * Z)) (s : kstate) :=
  {| init_pgd := f (init_pgd s); init_kvm_seq := init_kvm_seq s;
     pte_tables := pte_tables s; free_pages := free_pages s;
     active_mm := active_mm s; vmlist := vmlist s; trace := trace s |}.
Definition set_init_kvm_seq (v : Z) (s : kstate) :=
  {| init_pgd := init_pgd s; init_kvm_seq := v;
     pte_tables := pte_tables s; free_pages := free_pages s;
     active_mm := active_mm s; vmlist := vmlist s; trace := trace s |}.
Definition set_pte_tables (f : gmap Z (gmap Z Z) -> gmap Z (gmap Z Z)) (s : kstate) :=
  {| init_pgd := init_pgd s; init_kvm_seq := init_kvm_seq s;
     pte_tables := f (pte_tables s); free_pages := free_pages s;
     active_mm := active_mm s; vmlist := vmlist s; trace := trace s |}.
Definition set_free_pages (l : list Z) (s : kstate) :=
  {| init_pgd := init_pgd s; init_kvm_seq := init_kvm_seq s;
     pte_tables := pte_tables s; free_pages := l;
     active_mm := active_mm s; vmlist := vmlist s; trace := trace s |}.
Definition set_active_mm (mm : mm_struct) (s : kstate) :=
  {| init_pgd := init_pgd s; init_kvm_seq := init_kvm_seq s;
     pte_tables := pte_tables s; free_pages := free_pages s;
     active_mm := mm; vmlist := vmlist s; trace := trace s |}.
Definition set_vmlist (l : list vm_struct) (s : kstate) :=
  {| init_pgd := init_pgd s; init_kvm_seq := init_kvm_seq s;
     pte_tables := pte_tables s; free_pages := free_pages s;
     active_mm := active_mm s; vmlist := l; trace := trace s |}.
Definition emit (e : event) (s : kstate) :=
  {| init_pgd := init_pgd s; init_kvm_seq := init_kvm_seq s;
     pte_tables := pte_tables s; free_pages := free_pages s;
     active_mm := active_mm s; vmlist := vmlist s; trace := trace s ++ [e] |}.

(** A call either returns, stops the kernel in [BUG()], or runs out of the
    iteration budget given to its loops. *)
Inductive outcome (A : Type) : Type :=
| Done (a : A) (s : kstate)
| Bug (s : kstate)
| Diverge.
Arguments Done {A} a s.
Arguments Bug {A} s.
Arguments Diverge {A}.

Definition bind {A B : Type} (m : kstate -> outcome A)
    (k : A -> kstate -> outcome B) : kstate -> outcome B :=
  fun s => match m s with
           | Done a s' => k a s'
           | Bug s' => Bug s'
           | Diverge => Diverge
           end.

Definition returned {A : Type} (o : outcome A) : option A :=
  match o with Done a _ => Some a | _ => None end.

Definition final {A : Type} (o : outcome A) : option kstate :=
  match o with Done _ s => Some s | Bug s => Some s | Diverge => None end.

Notation "'let*' x ':=' m 'in' k" := (bind m (fun x => k))
  (at level 10, x name, m at level 100, k at level 200, only parsing).

(** ** Page-table primitives *)

Definition pgd_read (s : kstate) (pgd : Z) : Z * Z :=
  default (0, 0) (init_pgd s !! pgd).
Definition pmd_offset (pgd addr : Z) : Z := pgd.
Definition pmd_none (pmd : Z) : bool := pmd =? 0.
Definition pmd_addr_end (addr stop : Z) : Z := stop.
Definition pgd_addr_end (addr stop : Z) : Z :=
  let boundary := Z.land (Word.add addr PGDIR_SIZE) PGDIR_MASK in
  if Word.sub boundary 1 <? Word.sub stop 1 then boundary else stop.

Definition PMD_BIT4 : Z := Z.shiftl 1 4.
Definition _PAGE_KERNEL_TABLE : Z := Z.lor PMD_TYPE_TABLE PMD_BIT4.

(** Modelled from the spec: the table-level primitives of the page-table
    allocator ([pmd_alloc], [pte_alloc_kernel], [pte_free_kernel],
    [pmd_page_vaddr], [pmd_clear], [set_pte_ext]) are not in this file.  A
    leaf table is identified by the address of its page; a fresh table is
    empty; allocation fails when no page is left.  The first level is
    folded, so [pmd_alloc] hands back the first-level slot. *)
Definition pmd_page_vaddr (pmd : Z) : Z :=
  Z.land pmd (Word.not (PTRS_PER_PTE * 4 - 1)).

Definition pmd_alloc (pgd addr : Z) (s : kstate) : option Z := Some pgd.

Definition pmd_populate_kernel (pmd table : Z) (s : kstate) : kstate :=
  set_init_pgd
    (insert pmd (Z.lor table _PAGE_KERNEL_TABLE,
                 Z.lor (Word.add table (256 * 4)) _PAGE_KERNEL_TABLE)) s.

Definition pte_alloc_kernel (pmd addr : Z) (s : kstate) : option (Z * Z) * kstate :=
  if pmd_none (fst (pgd_read s pmd)) then
    match free_pages s with
    | [] => (None, s)
    | table :: rest =>
        let s1 := set_free_pages rest s in
        let s2 := set_pte_tables (insert table ∅) s1 in
        let s3 := pmd_populate_kernel pmd table s2 in
        (Some (pmd_page_vaddr (fst (pgd_read s3 pmd)), __pte_index addr), s3)
    end
  else (Some (pmd_page_vaddr (fst (pgd_read s pmd)), __pte_index addr), s).

Definition pte_free_kernel (table : Z) (s : kstate) : kstate :=
  emit (pte_table_freed table)
    (set_free_pages (table :: free_pages s)
       (set_pte_tables (delete table) s)).

Definition pmd_clear (pmd : Z) (s : kstate) : kstate :=
  emit (pmd_cleared pmd) (set_init_pgd (insert pmd (0, 0)) s).

Definition pte_read (s : kstate) (pte : Z * Z) : Z :=
  default 0 (default ∅ (pte_tables s !! fst pte) !! snd pte).
Definition pte_none (v : Z) : bool := v =? 0.
Definition pfn_pte (pfn prot : Z) : Z := Z.lor (__pfn_to_phys pfn) prot.
Definition set_pte_ext (pte : Z * Z) (v : Z) (s : kstate) : kstate :=
  set_pte_tables
    (fun m => <[fst pte := <[snd pte := v]> (default ∅ (m !! fst pte))]> m) s.

(** ** The page-table populator: [remap_area_pte], [remap_area_pmd],
    [remap_area_pages] *)

Fixpoint remap_area_pte_loop (n : nat) (pte : Z * Z)
    (addr stop phys_addr prot : Z) (s : kstate) : outcome Z :=
  match n with
  | O => Diverge
  | S n' =>
      if negb (pte_none (pte_read s pte)) then Bug s
      else
        let s1 := set_pte_ext pte (pfn_pte (Z.shiftr phys_addr PAGE_SHIFT) prot) s in
        let phys_addr := Word.add phys_addr PAGE_SIZE in
        let pte := (fst pte, snd pte + 1) in
        let addr := Word.add addr PAGE_SIZE in
        if negb (addr =? stop)
        then remap_area_pte_loop n' pte addr stop phys_addr prot s1
        else Done 0 s1
  end.

Definition remap_area_pte (fuel : nat) (pmd addr stop phys_addr : Z)
    (type : mem_type) (s : kstate) : outcome Z :=
  match pte_alloc_kernel pmd addr s with
  | (None, s1) => Done (- ENOMEM) s1
  | (Some pte, s1) =>
      remap_area_pte_loop fuel pte addr stop phys_addr (prot_pte type) s1
  end.

Fixpoint remap_area_pmd_loop (fuel n : nat) (pmd addr stop phys_addr : Z)
    (type : mem_type) (s : kstate) : outcome Z :=
  match n with
  | O => Diverge
  | S n' =>
      let next := pmd_addr_end addr stop in
      match remap_area_pte fuel pmd addr next phys_addr type s with
      | Done ret s1 =>
          if negb (ret =? 0) then Done ret s1
          else
            let phys_addr := Word.add phys_addr (Word.sub next addr) in
            if negb (next =? stop)
            then remap_area_pmd_loop fuel n' (pmd + 1) next stop phys_addr type s1
            else Done ret s1
      | Bug s1 => Bug s1
      | Diverge => Diverge
      end
  end.

Definition remap_area_pmd (fuel : nat) (pgd addr stop phys_addr : Z)
    (type : mem_type) (s : kstate) : outcome Z :=
  match pmd_alloc pgd addr s with
  | None => Done (- ENOMEM) s
  | Some pmd => remap_area_pmd_loop fuel fuel pmd addr stop phys_addr type s
  end.

Fixpoint remap_area_pages_loop (fuel n : nat) (pgd addr stop phys_addr : Z)
    (type : mem_type) (s : kstate) : outcome Z :=
  match n with
  | O => Diverge
  | S n' =>
      let next := pgd_addr_end addr stop in
      match remap_area_pmd fuel pgd addr next phys_addr type s with
      | Done err s1 =>
          if negb (err =? 0) then Done err s1
          else
            let phys_addr := Word.add phys_addr (Word.sub next addr) in
            if negb (next =? stop)
            then remap_area_pages_loop fuel n' (pgd + 1) next stop phys_addr type s1
            else Done err s1
      | Bug s1 => Bug s1
      | Diverge => Diverge
      end
  end.

Definition remap_area_pages (fuel : nat) (start pfn size : Z)
    (type : mem_type) (s : kstate) : outcome Z :=
  let addr := start in
  let stop := Word.add start size in
  let phys_addr := __pfn_to_phys pfn in
  if stop <=? addr then Bug s
  else remap_area_pages_loop fuel fuel (pgd_index addr) addr stop phys_addr type s.

Definition ioremap_page (fuel : nat) (virt phys : Z) (mtype : mem_type) :
    kstate -> outcome Z :=
  remap_area_pages fuel virt (__phys_to_pfn phys) PAGE_SIZE mtype.

(** ** The lazy synchroniser: [__check_kvm_seq]

    The loop re-reads [init_mm.context.kvm_seq] after the copy, so what other
    contexts do to the kernel state while it runs matters.  Each pass is
    given the environment's action between the first read and the copy, and
    between the copy and the second read; once the environment's actions
    are used up the pass runs undisturbed. *)

Definition copy_slot (src : gmap Z (Z * Z)) (i : Z) (dst : gmap Z (Z * Z)) :
    gmap Z (Z * Z) :=
  match src !! i with
  | Some e => <[i := e]> dst
  | None => delete i dst
  end.

Definition memcpy_pgd (dst src : gmap Z (Z * Z)) (first count : Z) :
    gmap Z (Z * Z) :=
  foldr (copy_slot src) dst (seqZ first count).

Definition interference : Type := (kstate -> kstate) * (kstate -> kstate).

Definition quiet : interference := (fun s => s, fun s => s).

Definition check_kvm_seq_pass (cfg : platform) (env : interference)
    (s : kstate) (mm : mm_struct) : Z * kstate * mm_struct :=
  let seq := init_kvm_seq s in
  let s1 := fst env s in
  let copied :=
    memcpy_pgd (mm_pgd mm) (init_pgd s1)
      (pgd_index (VMALLOC_START cfg))
      (pgd_index (VMALLOC_END cfg) - pgd_index (VMALLOC_START cfg)) in
  let mm1 := {| mm_pgd := copied; mm_kvm_seq := seq |} in
  let s2 := snd env s1 in
  (seq, s2, mm1).

Fixpoint __check_kvm_seq (cfg : platform) (env : list interference)
    (s : kstate) (mm : mm_struct) : kstate * mm_struct :=
  match env with
  | [] =>
      let '(seq, s1, mm1) := check_kvm_seq_pass cfg quiet s mm in (s1, mm1)
  | e :: env' =>
      let '(seq, s1, mm1) := check_kvm_seq_pass cfg e s mm in
      if negb (seq =? init_kvm_seq s1)
      then __check_kvm_seq cfg env' s1 mm1
      else (s1, mm1)
  end.

(** ** The block mapper: [unmap_area_sections], [remap_area_sections],
    [remap_area_supersections] *)

Definition kvm_seq_inc (s : kstate) : kstate :=
  set_init_kvm_seq (Word.add (init_kvm_seq s) 1) s.

Definition unmap_pmd (pgd addr : Z) (s : kstate) : kstate :=
  let pmdp := pmd_offset pgd addr in
  let pmd := fst (pgd_read s pmdp) in
  if negb (pmd_none pmd) then
    let s1 := pmd_clear pmdp s in
    let s2 := kvm_seq_inc s1 in
    if Z.land pmd PMD_TYPE_MASK =? PMD_TYPE_TABLE
    then pte_free_kernel (pmd_page_vaddr pmd) s2
    else s2
  else s.

Fixpoint unmap_area_sections_loop (n : nat) (pgd addr stop : Z) (s : kstate) :
    outcome unit :=
  match n with
  | O => Diverge
  | S n' =>
      let s1 := unmap_pmd pgd addr s in
      let addr := Word.add addr PGDIR_SIZE in
      let pgd := pgd + 1 in
      if addr <? stop then unmap_area_sections_loop n' pgd addr stop s1
      else Done tt s1
  end.

Definition sync_active_mm (cfg : platform) (s : kstate) : kstate :=
  if negb (mm_kvm_seq (active_mm s) =? init_kvm_seq s) then
    let '(s1, mm1) := __check_kvm_seq cfg [] s (active_mm s) in
    set_active_mm mm1 s1
  else s.

Definition unmap_area_sections (cfg : platform) (fuel : nat) (virt size : Z)
    (s : kstate) : outcome unit :=
  let addr := virt in
  let stop := Word.add virt (Z.land size (Word.not (SZ_1M - 1))) in
  let s0 := emit (flush_cache_vunmap addr stop) s in
  match unmap_area_sections_loop fuel (pgd_index addr) addr stop s0 with
  | Done _ s1 =>
      Done tt (emit (flush_tlb_kernel_range virt stop) (sync_active_mm cfg s1))
  | Bug s1 => Bug s1
  | Diverge => Diverge
  end.

Definition pmd_write0 (pmd v : Z) (s : kstate) : kstate :=
  set_init_pgd (fun m => <[pmd := (v, snd (default (0, 0) (m !! pmd)))]> m) s.
Definition pmd_write1 (pmd v : Z) (s : kstate) : kstate :=
  set_init_pgd (fun m => <[pmd := (fst (default (0, 0) (m !! pmd)), v)]> m) s.

Fixpoint remap_area_sections_loop (n : nat) (pgd addr stop pfn : Z)
    (type : mem_type) (s : kstate) : outcome Z :=
  match n with
  | O => Diverge
  | S n' =>
      let pmd := pmd_offset pgd addr in
      let s1 := pmd_write0 pmd (Z.lor (__pfn_to_phys pfn) (prot_sect type)) s in
      let pfn := Word.add pfn (Z.shiftr SZ_1M PAGE_SHIFT) in
      let s2 := pmd_write1 pmd (Z.lor (__pfn_to_phys pfn) (prot_sect type)) s1 in
      let pfn := Word.add pfn (Z.shiftr SZ_1M PAGE_SHIFT) in
      let s3 := emit (flush_pmd_entry pmd) s2 in
      let addr := Word.add addr PGDIR_SIZE in
      let pgd := pgd + 1 in
      if addr <? stop then remap_area_sections_loop n' pgd addr stop pfn type s3
      else Done 0 s3
  end.

Definition remap_area_sections (cfg : platform) (fuel : nat)
    (virt pfn size : Z) (type : mem_type) : kstate -> outcome Z :=
  let addr := virt in
  let stop := Word.add virt size in
  let* _ := unmap_area_sections cfg fuel virt size in
  remap_area_sections_loop fuel (pgd_index addr) addr stop pfn type.

Fixpoint supersection_fill (i : nat) (pgd addr v : Z) (s : kstate) :
    Z * Z * kstate :=
  match i with
  | O => (pgd, addr, s)
  | S i' =>
      let pmd := pmd_offset pgd addr in
      let s1 := pmd_write1 pmd v (pmd_write0 pmd v s) in
      let s2 := emit (flush_pmd_entry pmd) s1 in
      supersection_fill i' (pgd + 1) (Word.add addr PGDIR_SIZE) v s2
  end.

Fixpoint remap_area_supersections_loop (n : nat) (pgd addr stop pfn : Z)
    (type : mem_type) (s : kstate) : outcome Z :=
  match n with
  | O => Diverge
  | S n' =>
      let super_pmd_val :=
        Z.lor (Z.lor (__pfn_to_phys pfn) (prot_sect type)) PMD_SECT_SUPER in
      let super_pmd_val :=
        Z.lor super_pmd_val
          (Word.shl (Z.land (Z.shiftr pfn (32 - PAGE_SHIFT)) 0xf) 20) in
      let '(pgd, addr, s1) := supersection_fill 8 pgd addr super_pmd_val s in
      let pfn := Word.add pfn (Z.shiftr SUPERSECTION_SIZE PAGE_SHIFT) in
      if addr <? stop
      then remap_area_supersections_loop n' pgd addr stop pfn type s1
      else Done 0 s1
  end.

Definition remap_area_supersections (cfg : platform) (fuel : nat)
    (virt pfn size : Z) (type : mem_type) : kstate -> outcome Z :=
  let addr := virt in
  let stop := Word.add virt size in
  let* _ := unmap_area_sections cfg fuel virt size in
  remap_area_supersections_loop fuel (pgd_index virt) addr stop pfn type.

(** ** Virtual areas

    Modelled from the spec: the reservation and release of kernel virtual
    ranges ([get_vm_area_caller], [get_vm_area], [vunmap]) are not in this
    file.  Reserving asks the platform's policy for a base address and
    records the area with one guard page; releasing drops the area that
    starts at the address.  What the release does to the page tables is not
    part of the model. *)

Definition get_vm_area_caller (cfg : platform) (size flags : Z) (s : kstate) :
    option Z * kstate :=
  match vm_policy cfg (vmlist s) size with
  | None => (None, s)
  | Some addr =>
      (Some addr,
       set_vmlist ({| vm_addr := addr; vm_size := Word.add size PAGE_SIZE;
                      vm_flags := flags |} :: vmlist s) s)
  end.

Definition area_or_flags (addr bits : Z) (s : kstate) : kstate :=
  set_vmlist
    (map (fun a => if vm_addr a =? addr
                   then {| vm_addr := vm_addr a; vm_size := vm_size a;
                           vm_flags := Z.lor (vm_flags a) bits |}
                   else a) (vmlist s)) s.

Definition vunmap (addr : Z) (s : kstate) : kstate :=
  emit (vm_area_released addr)
    (set_vmlist (filter (fun a => vm_addr a <> addr) (vmlist s)) s).

(** ** The orchestrator: [__arm_ioremap_pfn_caller], [__arm_ioremap_caller] *)

Definition ioremap_dispatch (cfg : platform) (fuel : nat)
    (addr pfn size : Z) (type : mem_type) (s : kstate) : outcome Z :=
  match select_mapping cfg pfn size addr with
  | Supersections =>
      remap_area_supersections cfg fuel addr pfn size type
        (area_or_flags addr VM_ARM_SECTION_MAPPING s)
  | Sections =>
      remap_area_sections cfg fuel addr pfn size type
        (area_or_flags addr VM_ARM_SECTION_MAPPING s)
  | Pages => remap_area_pages fuel addr pfn size type s
  end.

Definition __arm_ioremap_pfn_caller (cfg : platform) (fuel : nat)
    (pfn offset size mtype : Z) (s : kstate) : outcome Z :=
  if high_mapping_misaligned pfn then Done NULL s
  else
    match get_mem_type cfg mtype with
    | None => Done NULL s
    | Some type =>
        let size := PAGE_ALIGN (Word.add offset size) in
        match get_vm_area_caller cfg size VM_IOREMAP s with
        | (None, s1) => Done NULL s1
        | (Some addr, s1) =>
            match ioremap_dispatch cfg fuel addr pfn size type s1 with
            | Done err s2 =>
                if negb (err =? 0) then Done NULL (vunmap addr s2)
                else Done (Word.add offset addr)
                       (emit (flush_cache_vmap addr (Word.add addr size)) s2)
            | Bug s2 => Bug s2
            | Diverge => Diverge
            end
        end
    end.

Definition __arm_ioremap_caller (cfg : platform) (fuel : nat)
    (phys_addr size mtype : Z) (s : kstate) : outcome Z :=
  let offset := Z.land phys_addr (Word.not PAGE_MASK) in
  let pfn := __phys_to_pfn phys_addr in
  let last_addr := Word.sub (Word.add phys_addr size) 1 in
  if (size =? 0) || (last_addr <? phys_addr) then Done NULL s
  else __arm_ioremap_pfn_caller cfg fuel pfn offset size mtype s.

Definition __arm_ioremap_pfn := __arm_ioremap_pfn_caller.
Definition __arm_ioremap := __arm_ioremap_caller.

(** ** The strided multi-region mapper: [__arm_multi_strided_ioremap]

    The four arrays are lists; a stride array may be a null pointer.  An
    index beyond a list reads 0. *)

Definition rd (a : list Z) (i : nat) : Z := default 0 (a !! i).

(** [(stride && stride[i]) ? stride[i] : phys_size[i]] *)
Definition stride_or_size (stride : option (list Z)) (phys_size : list Z)
    (i : nat) : Z :=
  match stride with
  | Some st => if negb (rd st i =? 0) then rd st i else rd phys_size i
  | None => rd phys_size i
  end.

(** The tests of the first loop on region [i] (lines 373-406); [true] means
    the region is refused. *)
Definition strided_region_refused (phys_addr phys_size : list Z)
    (phys_stride virt_stride : option (list Z)) (i : nat) : bool :=
  let pstride := stride_or_size phys_stride phys_size i in
  let vstride := stride_or_size virt_stride phys_size i in
  if xorb (pstride =? 0) (vstride =? 0) then true
  else if negb (Z.land (Z.lor (Z.lor (Z.lor (rd phys_addr i) (rd phys_size i))
                                     vstride) pstride)
                       (Word.not PAGE_MASK) =? 0)
          || (rd phys_size i =? 0)
          || (pstride <? vstride)
          || (negb (pstride =? 0) && negb (rd phys_size i mod pstride =? 0))
          || (Word.sub (Word.add (rd phys_addr i) (rd phys_size i)) 1
              <? rd phys_addr i)
  then true
  else high_mapping_misaligned (__phys_to_pfn (rd phys_addr i)).

Fixpoint strided_validate (todo i : nat) (phys_addr phys_size : list Z)
    (phys_stride virt_stride : option (list Z)) (pfns : list Z)
    (total_size : Z) : option (list Z * Z) :=
  match todo with
  | O => Some (pfns, total_size)
  | S todo' =>
      if strided_region_refused phys_addr phys_size phys_stride virt_stride i
      then None
      else
        let pstride := stride_or_size phys_stride phys_size i in
        let vstride := stride_or_size virt_stride phys_size i in
        strided_validate todo' (S i) phys_addr phys_size phys_stride
          virt_stride
          (<[i := __phys_to_pfn (rd phys_addr i)]> pfns)
          (Word.add total_size
             (Word.mul (rd phys_size i / pstride) vstride))
  end.

(** The cursor of the second loop: [pfns], [addr_i] and [err]. *)
Record cursor := {
  pfns : list Z;
  addr_i : Z;
  err : Z
}.

Definition strided_step (cfg : platform) (fuel : nat) (addr : Z) (i : nat)
    (size pstride vstride : Z) (type : mem_type) (c : cursor) (s : kstate) :
    outcome cursor :=
  let pfn := rd (pfns c) i in
  let mapped :=
    match select_mapping cfg pfn vstride (addr_i c) with
    | Supersections =>
        remap_area_supersections cfg fuel (addr_i c) pfn size type
          (area_or_flags addr VM_ARM_SECTION_MAPPING s)
    | Sections =>
        remap_area_sections cfg fuel (addr_i c) pfn vstride type
          (area_or_flags addr VM_ARM_SECTION_MAPPING s)
    | Pages => remap_area_pages fuel (addr_i c) pfn vstride type s
    end in
  match mapped with
  | Done e s1 =>
      Done {| pfns := <[i := Word.add pfn (__phys_to_pfn pstride)]> (pfns c);
              addr_i := Word.add (addr_i c) vstride;
              err := e |} s1
  | Bug s1 => Bug s1
  | Diverge => Diverge
  end.

Fixpoint strided_steps (cfg : platform) (fuel n : nat) (addr : Z) (i : nat)
    (j size pstride vstride : Z) (type : mem_type) (c : cursor) (s : kstate) :
    outcome cursor :=
  match n with
  | O => Diverge
  | S n' =>
      if j <? size then
        match strided_step cfg fuel addr i size pstride vstride type c s with
        | Done c1 s1 =>
            strided_steps cfg fuel n' addr i (Word.add j pstride) size
              pstride vstride type c1 s1
        | Bug s1 => Bug s1
        | Diverge => Diverge
        end
      else Done c s
  end.

Fixpoint strided_regions (cfg : platform) (fuel todo : nat) (addr : Z)
    (i : nat) (phys_size : list Z) (phys_stride virt_stride : option (list Z))
    (type : mem_type) (c : cursor) (s : kstate) : outcome cursor :=
  match todo with
  | O => Done c s
  | S todo' =>
      if negb (err c =? 0) then Done c s
      else
        let pstride := stride_or_size phys_stride phys_size i in
        let vstride := stride_or_size virt_stride phys_size i in
        match strided_steps cfg fuel fuel addr i 0 (rd phys_size i)
                pstride vstride type c s with
        | Done c1 s1 =>
            strided_regions cfg fuel todo' addr (S i) phys_size phys_stride
              virt_stride type c1 s1
        | Bug s1 => Bug s1
        | Diverge => Diverge
        end
  end.

Definition __arm_multi_strided_ioremap (cfg : platform) (fuel : nat)
    (sections : Z) (phys_addr phys_size : list Z)
    (phys_stride virt_stride : option (list Z)) (mtype : Z) (s : kstate) :
    outcome Z :=
  if MAX_SECTIONS <? sections then Done NULL s
  else
    match strided_validate (Z.to_nat sections) 0 phys_addr phys_size
            phys_stride virt_stride (replicate (Z.to_nat MAX_SECTIONS) 0) 0 with
    | None => Done NULL s
    | Some (pfns0, total_size) =>
        match get_mem_type cfg mtype with
        | None => Done NULL s
        | Some type =>
            match get_vm_area_caller cfg total_size VM_IOREMAP s with
            | (None, s1) => Done NULL s1
            | (Some addr, s1) =>
                match strided_regions cfg fuel (Z.to_nat sections) addr 0
                        phys_size phys_stride virt_stride type
                        {| pfns := pfns0; addr_i := addr; err := 0 |} s1 with
                | Done c s2 =>
                    if negb (err c =? 0) then Done NULL (vunmap addr s2)
                    else Done addr
                           (emit (flush_cache_vmap addr
                                    (Word.add addr total_size)) s2)
                | Bug s2 => Bug s2
                | Diverge => Diverge
                end
            end
        end
    end.

(** ** The reverse path: [__iounmap] *)

Fixpoint find_ioremap_area (l : list vm_struct) (addr : Z) : option vm_struct :=
  match l with
  | [] => None
  | tmp :: rest =>
      if negb (Z.land (vm_flags tmp) VM_IOREMAP =? 0) && (vm_addr tmp =? addr)
      then Some tmp
      else find_ioremap_area rest addr
  end.

Definition __iounmap (cfg : platform) (fuel : nat) (io_addr : Z) :
    kstate -> outcome unit :=
  let addr := Z.land PAGE_MASK io_addr in
  let* _ :=
    (fun s =>
       if CONFIG_SMP cfg then Done tt s
       else
         match find_ioremap_area (vmlist s) addr with
         | Some tmp =>
             if negb (Z.land (vm_flags tmp) VM_ARM_SECTION_MAPPING =? 0)
             then unmap_area_sections cfg fuel (vm_addr tmp) (vm_size tmp) s
             else Done tt s
         | None => Done tt s
         end) in
  fun s => Done tt (vunmap addr s).

(** ** The selection policy in the words of the specification

    The design text makes the frame-number threshold a matter of encoding
    only: the largest block is chosen on a single processor whenever the
    hardware has the extended mode and the three quantities are aligned. *)

Definition aligned_to (block x : Z) : bool := x mod block =? 0.

Definition all_aligned_to (block pfn size addr : Z) : bool :=
  aligned_to block (pfn * PAGE_SIZE) && aligned_to block size
  && aligned_to block addr.

Definition spec_select_mapping (cfg : platform) (pfn size addr : Z) :
    granularity :=
  if negb (CONFIG_SMP cfg) && cpu_has_xp cfg
     && all_aligned_to SUPERSECTION_SIZE pfn size addr
  then Supersections
  else if all_aligned_to PMD_SIZE pfn size addr then Sections
  else Pages.

(** ** A reference platform and kernel state for concrete runs *)

Module Sample.

Definition MT_DEVICE : mem_type :=
  {| prot_pte := 0x243; prot_l1 := 0x11; prot_sect := 0x412; domain := 0 |}.

Definition up : platform :=
  {| CONFIG_SMP := false; DOMAIN_IO := 0; cpu_architecture := 9;
     get_cr := 0x00c5387d; cpu_is_xsc3 := false;
     mem_types := [MT_DEVICE];
     VMALLOC_START := 0xE0000000; VMALLOC_END := 0xF8000000;
     vm_policy := fun _ _ => Some 0xE0000000 |}.

Definition up_at (base : Z) : platform :=
  {| CONFIG_SMP := false; DOMAIN_IO := 0; cpu_architecture := 9;
     get_cr := 0x00c5387d; cpu_is_xsc3 := false;
     mem_types := [MT_DEVICE];
     VMALLOC_START := 0xE0000000; VMALLOC_END := 0xF8000000;
     vm_policy := fun _ _ => Some base |}.

Definition mm0 : mm_struct := {| mm_pgd := ∅; mm_kvm_seq := 0 |}.

Definition boot : kstate :=
  {| init_pgd := ∅; init_kvm_seq := 0; pte_tables := ∅;
     free_pages := [0x8000; 0x9000]; active_mm := mm0;
     vmlist := []; trace := [] |}.


(** No page left for new leaf tables, and a leaf table already in place
    for the 2MB that start at 0xE0200000. *)
Definition starved : kstate :=
  {| init_pgd := {[ 1793 := (0x8011, 0x8411) ]};
     init_kvm_seq := 0; pte_tables := {[ 0x8000 := ∅ ]};
     free_pages := []; active_mm := mm0;
     vmlist := []; trace := [] |}.

(** A leaf table in place for the 2MB at 0xE0000000 whose second page is
    already mapped. *)
Definition occupied : kstate :=
  {| init_pgd := {[ 1792 := (0x8011, 0x8411) ]};
     init_kvm_seq := 0;
     pte_tables := {[ 0x8000 := {[ 1 := 0x10001243 ]} ]};
     free_pages := [0x9000]; active_mm := mm0;
     vmlist := []; trace := [] |}.

(** One section pair mapped at 0xE0000000, the counter at 5. *)
Definition mapped : kstate :=
  {| init_pgd := {[ 1792 := (0x10000412, 0x10100412) ]};
     init_kvm_seq := 5; pte_tables := ∅;
     free_pages := []; active_mm := {| mm_pgd := ∅; mm_kvm_seq := 5 |};
     vmlist := []; trace := [] |}.

Definition unmapped : kstate :=
  default mapped
    (final (unmap_area_sections up 8 0xE0000000 0x200000 mapped)).

End Sample.

(** ** Observations on outcomes and auxiliary definitions for the proofs *)

Definition is_pmd_cleared (e : event) : bool :=
  match e with pmd_cleared _ => true | _ => false end.

Definition is_flush (e : event) : bool :=
  match e with
  | flush_cache_vunmap _ _ | flush_tlb_kernel_range _ _
  | flush_cache_vmap _ _ => true
  | _ => false
  end.

Definition cleared_count (evs : list event) : Z :=
  Z.of_nat (length (List.filter is_pmd_cleared evs)).

(** [m] consecutive first-level slots torn down, as the loop of
    [unmap_area_sections] does them one after the other. *)
Fixpoint unmap_units (m : nat) (pgd : Z) (s : kstate) : kstate :=
  match m with
  | O => s
  | S m' => unmap_units m' (pgd + 1) (unmap_pmd pgd 0 s)
  end.

(** One unit of [remap_area_sections]: the two writes and the flush. *)
Definition section_unit (pgd pfn : Z) (type : mem_type) (s : kstate) : kstate :=
  emit (flush_pmd_entry pgd)
    (pmd_write1 pgd
       (Z.lor (__pfn_to_phys (Word.add pfn (Z.shiftr SZ_1M PAGE_SHIFT)))
              (prot_sect type))
       (pmd_write0 pgd (Z.lor (__pfn_to_phys pfn) (prot_sect type)) s)).

Fixpoint section_units (m : nat) (pgd pfn : Z) (type : mem_type) (s : kstate) :
    kstate :=
  match m with
  | O => s
  | S m' =>
      section_units m' (pgd + 1)
        (Word.add (Word.add pfn (Z.shiftr SZ_1M PAGE_SHIFT))
                  (Z.shiftr SZ_1M PAGE_SHIFT))
        type (section_unit pgd pfn type s)
  end.

(** Pages on the free list are not in use as leaf tables. *)
Definition free_pages_unused (s : kstate) : Prop :=
  forall t, In t (free_pages s) -> pte_tables s !! t = None.



(** The first-level slots that [__check_kvm_seq] copies. *)
Definition in_vmalloc_window (cfg : platform) (i : Z) : Prop :=
  pgd_index (VMALLOC_START cfg) <= i
  < pgd_index (VMALLOC_START cfg)
    + (pgd_index (VMALLOC_END cfg) - pgd_index (VMALLOC_START cfg)).

(** The leaf entry the kernel's own walk finds for an address:
    [pgd_offset_k], [pmd_offset], then [pte_offset_kernel]. *)
Definition leaf_entry (s : kstate) (addr : Z) : Z :=
  pte_read s (pmd_page_vaddr (fst (pgd_read s (pgd_index addr))),
              __pte_index addr).

(** The value [remap_area_supersections] writes for a frame number. *)
Definition super_pmd_val (pfn : Z) (type : mem_type) : Z :=
  Z.lor (Z.lor (Z.lor (__pfn_to_phys pfn) (prot_sect type)) PMD_SECT_SUPER)
        (Word.shl (Z.land (Z.shiftr pfn (32 - PAGE_SHIFT)) 0xf) 20).

(** [m] supersections written one after the other, eight first-level slots
    each. *)
Fixpoint supersection_units (m : nat) (pgd addr pfn : Z) (type : mem_type)
    (s : kstate) : kstate :=
  match m with
  | O => s
  | S m' =>
      let '(pgd1, addr1, s1) :=
        supersection_fill 8 pgd addr (super_pmd_val pfn type) s in
      supersection_units m' pgd1 addr1
        (Word.add pfn (Z.shiftr SUPERSECTION_SIZE PAGE_SHIFT)) type s1
  end.


(** * Properties *)

(** ** Words and masks *)

Lemma wrap_range x : Word.in_range (Word.wrap x).
Proof. unfold Word.in_range, Word.wrap, Word.modulus. apply Z.mod_pos_bound. lia. Qed.

Lemma wrap_small x : Word.in_range x -> Word.wrap x = x.
Proof. unfold Word.in_range, Word.wrap. intros H. apply Z.mod_small. exact H. Qed.

Lemma not_SUPERSECTION_MASK : Word.not SUPERSECTION_MASK = Z.ones 24.
Proof. reflexivity. Qed.

Lemma not_PMD_MASK : Word.not PMD_MASK = Z.ones 21.
Proof. reflexivity. Qed.

Lemma not_PAGE_MASK : Word.not PAGE_MASK = Z.ones 12.
Proof. reflexivity. Qed.

Lemma land_lor3_ones a b c n :
  0 <= n ->
  Z.land (Z.lor (Z.lor a b) c) (Z.ones n) = 0 <->
  a mod 2 ^ n = 0 /\ b mod 2 ^ n = 0 /\ c mod 2 ^ n = 0.
Proof.
  intros Hn.
  rewrite !Z.land_lor_distr_l, !Z.lor_eq_0_iff, !Z.land_ones by exact Hn.
  tauto.
Qed.

Lemma pfn_to_phys_mod pfn n :
  0 <= n <= 32 -> __pfn_to_phys pfn mod 2 ^ n = (pfn * PAGE_SIZE) mod 2 ^ n.
Proof.
  intros Hn. unfold __pfn_to_phys, Word.shl, Word.wrap, Word.modulus.
  rewrite Z.shiftl_mul_pow2 by (unfold PAGE_SHIFT; lia).
  change (2 ^ PAGE_SHIFT) with PAGE_SIZE.
  apply Z.mod_mod_divide.
  exists (2 ^ (32 - n)). rewrite <- Z.pow_add_r by lia. f_equal. lia.
Qed.

Lemma supersection_aligned_iff pfn size addr :
  Z.land (Z.lor (Z.lor (__pfn_to_phys pfn) size) addr)
         (Word.not SUPERSECTION_MASK) = 0 <->
  all_aligned_to SUPERSECTION_SIZE pfn size addr = true.
Proof.
  rewrite not_SUPERSECTION_MASK, land_lor3_ones by lia.
  rewrite pfn_to_phys_mod by lia.
  unfold all_aligned_to, aligned_to. rewrite !andb_true_iff, !Z.eqb_eq.
  change SUPERSECTION_SIZE with (2 ^ 24). tauto.
Qed.

Lemma section_aligned_iff pfn size addr :
  section_test pfn size addr = all_aligned_to PMD_SIZE pfn size addr.
Proof.
  apply eq_true_iff_eq. unfold section_test.
  rewrite Z.eqb_eq, not_PMD_MASK, land_lor3_ones by lia.
  rewrite pfn_to_phys_mod by lia.
  unfold all_aligned_to, aligned_to. rewrite !andb_true_iff, !Z.eqb_eq.
  change PMD_SIZE with (2 ^ 21). tauto.
Qed.

Lemma supersection_test_iff cfg pfn size addr :
  supersection_test cfg pfn size addr =
  (DOMAIN_IO cfg =? 0) && cpu_has_xp cfg && (0x100000 <=? pfn)
  && all_aligned_to SUPERSECTION_SIZE pfn size addr.
Proof.
  unfold supersection_test. f_equal.
  apply eq_true_iff_eq. rewrite Z.eqb_eq. apply supersection_aligned_iff.
Qed.

(** ** C1: granularity selection *)

(** C1, as the claim words it, fails: on a single processor with the
    extended mode present and everything aligned to 16MB, a frame number
    below 0x100000 gets section mapping, not supersection mapping. *)
Lemma select_mapping_threshold_counterexample :
  CONFIG_SMP Sample.up = false /\
  cpu_has_xp Sample.up = true /\
  all_aligned_to SUPERSECTION_SIZE 0x10000 0x1000000 0xE0000000 = true /\
  spec_select_mapping Sample.up 0x10000 0x1000000 0xE0000000 = Supersections /\
  select_mapping Sample.up 0x10000 0x1000000 0xE0000000 = Sections.
Proof. repeat split; reflexivity. Qed.

(** C1 (amended): the choice is a function of the build configuration, the
    CPU capability, the frame number and the alignment of physical base,
    size and virtual base only.  Supersections are chosen exactly when the
    build is uniprocessor, [DOMAIN_IO] is 0, the CPU has the extended mode,
    the frame number is at least 0x100000 and all three quantities are
    16MB aligned; otherwise sections exactly when the build is uniprocessor
    and all three are 2MB aligned; otherwise pages. *)
Theorem select_mapping_policy cfg pfn size addr :
  select_mapping cfg pfn size addr =
  if negb (CONFIG_SMP cfg) && (DOMAIN_IO cfg =? 0) && cpu_has_xp cfg
     && (0x100000 <=? pfn) && all_aligned_to SUPERSECTION_SIZE pfn size addr
  then Supersections
  else if negb (CONFIG_SMP cfg) && all_aligned_to PMD_SIZE pfn size addr
  then Sections
  else Pages.
Proof.
  unfold select_mapping.
  rewrite supersection_test_iff, section_aligned_iff.
  destruct (CONFIG_SMP cfg); reflexivity.
Qed.

(** ** C4: invalid requests are refused before anything changes *)

Lemma wrap_once x :
  Word.modulus <= x < 2 * Word.modulus -> Word.wrap x = x - Word.modulus.
Proof.
  intros H. unfold Word.wrap. symmetry.
  apply (Z.mod_unique x Word.modulus 1); lia.
Qed.

Lemma last_addr_wraps phys_addr size :
  Word.in_range phys_addr -> Word.in_range size ->
  Word.modulus <= phys_addr + size - 1 ->
  Word.sub (Word.add phys_addr size) 1 < phys_addr.
Proof.
  unfold Word.in_range, Word.sub, Word.add. intros Hp Hs Hw.
  rewrite (wrap_once (phys_addr + size)) by lia.
  rewrite wrap_small by (unfold Word.in_range; lia). lia.
Qed.

Lemma ioremap_pfn_unknown_type cfg fuel pfn offset size mtype s :
  get_mem_type cfg mtype = None ->
  __arm_ioremap_pfn_caller cfg fuel pfn offset size mtype s = Done NULL s.
Proof.
  intros H. unfold __arm_ioremap_pfn_caller. rewrite H.
  destruct (high_mapping_misaligned pfn); reflexivity.
Qed.

(** C4: a request of length zero, one whose last byte lies beyond the end
    of the 32-bit address space, or one whose memory type is not in the
    catalogue makes [__arm_ioremap_caller] return NULL and leaves the
    kernel state (virtual areas, page tables, counters) as it was. *)
Theorem ioremap_invalid_request cfg fuel phys_addr size mtype s :
  Word.in_range phys_addr -> Word.in_range size ->
  size = 0 \/ Word.modulus <= phys_addr + size - 1
  \/ get_mem_type cfg mtype = None ->
  __arm_ioremap_caller cfg fuel phys_addr size mtype s = Done NULL s.
Proof.
  intros Hp Hs H. unfold __arm_ioremap_caller.
  destruct ((size =? 0)
            || (Word.sub (Word.add phys_addr size) 1 <? phys_addr)) eqn:G;
    [reflexivity|].
  apply orb_false_iff in G. destruct G as [G1 G2].
  apply Z.eqb_neq in G1. apply Z.ltb_ge in G2.
  destruct H as [H | [H | H]].
  - contradiction.
  - pose proof (last_addr_wraps _ _ Hp Hs H). lia.
  - apply ioremap_pfn_unknown_type. exact H.
Qed.

Lemma ioremap_invalid_request_witness :
  __arm_ioremap_caller Sample.up 8 0x10000000 0 0 Sample.boot
    = Done NULL Sample.boot
  /\ __arm_ioremap_caller Sample.up 8 0xFFFFF000 0x2000 0 Sample.boot
    = Done NULL Sample.boot
  /\ __arm_ioremap_caller Sample.up 8 0x10000000 0x1000 7 Sample.boot
    = Done NULL Sample.boot.
Proof.
  split; [|split].
  - apply ioremap_invalid_request;
      [unfold Word.in_range, Word.modulus; lia ..| left; reflexivity].
  - apply ioremap_invalid_request;
      [unfold Word.in_range, Word.modulus; lia ..
      | right; left; unfold Word.modulus; lia].
  - apply ioremap_invalid_request;
      [unfold Word.in_range, Word.modulus; lia ..
      | right; right; reflexivity].
Defined.

(** ** C10: high mappings must be supersection aligned *)

Lemma high_mapping_misaligned_iff pfn :
  high_mapping_misaligned pfn = true <->
  0x100000 <= pfn /\ (pfn * PAGE_SIZE) mod SUPERSECTION_SIZE <> 0.
Proof.
  unfold high_mapping_misaligned.
  rewrite andb_true_iff, negb_true_iff, Z.leb_le, Z.eqb_neq.
  rewrite not_SUPERSECTION_MASK, Z.land_ones, pfn_to_phys_mod by lia.
  reflexivity.
Qed.

Lemma strided_accepted_not_high phys_addr phys_size phys_stride virt_stride i :
  strided_region_refused phys_addr phys_size phys_stride virt_stride i = false ->
  high_mapping_misaligned (__phys_to_pfn (rd phys_addr i)) = false.
Proof.
  unfold strided_region_refused.
  destruct (xorb _ _); [discriminate|].
  destruct (_ || _); [discriminate|]. trivial.
Qed.

Lemma strided_validate_accepts todo :
  forall i phys_addr phys_size phys_stride virt_stride pfns0 total r,
  strided_validate todo i phys_addr phys_size phys_stride virt_stride
    pfns0 total = Some r ->
  forall k, (i <= k < i + todo)%nat ->
  strided_region_refused phys_addr phys_size phys_stride virt_stride k = false.
Proof.
  induction todo as [|todo IH]; intros i pa ps pst vst pfns0 total r H k Hk.
  - lia.
  - simpl in H.
    destruct (strided_region_refused pa ps pst vst i) eqn:R; [discriminate|].
    destruct (Nat.eq_dec k i) as [->|Hne]; [exact R|].
    eapply IH; [exact H | lia].
Qed.

Lemma strided_refused_null cfg fuel sections pa ps pst vst mtype s k :
  (k < Z.to_nat sections)%nat ->
  strided_region_refused pa ps pst vst k = true ->
  __arm_multi_strided_ioremap cfg fuel sections pa ps pst vst mtype s
    = Done NULL s.
Proof.
  intros Hk R. unfold __arm_multi_strided_ioremap.
  destruct (MAX_SECTIONS <? sections); [reflexivity|].
  destruct (strided_validate _ _ _ _ _ _ _ _) as [r|] eqn:V; [|reflexivity].
  rewrite (strided_validate_accepts _ _ _ _ _ _ _ _ _ V k) in R by lia.
  discriminate.
Qed.

(** C10: a request whose frame number is at least 0x100000 and whose
    physical address is not 16MB aligned makes [__arm_ioremap_pfn_caller]
    return NULL with the kernel state untouched, whatever the platform
    (multiprocessor or not); and [__arm_multi_strided_ioremap] gets past
    its validation only when no region is such a request. *)
Theorem high_mapping_rejected cfg fuel :
  (forall pfn offset size mtype s,
     0x100000 <= pfn -> (pfn * PAGE_SIZE) mod SUPERSECTION_SIZE <> 0 ->
     __arm_ioremap_pfn_caller cfg fuel pfn offset size mtype s = Done NULL s)
  /\
  (forall sections pa ps pst vst mtype s,
     __arm_multi_strided_ioremap cfg fuel sections pa ps pst vst mtype s
       <> Done NULL s ->
     forall i, (i < Z.to_nat sections)%nat ->
     ~ (0x100000 <= __phys_to_pfn (rd pa i)
        /\ (__phys_to_pfn (rd pa i) * PAGE_SIZE) mod SUPERSECTION_SIZE <> 0)).
Proof.
  split.
  - intros pfn offset size mtype s H1 H2.
    unfold __arm_ioremap_pfn_caller.
    rewrite (proj2 (high_mapping_misaligned_iff pfn) (conj H1 H2)).
    reflexivity.
  - intros sections pa ps pst vst mtype s Hret i Hi Hhigh.
    apply Hret.
    apply (strided_refused_null _ _ _ _ _ _ _ _ _ i Hi).
    destruct (strided_region_refused pa ps pst vst i) eqn:R; [reflexivity|].
    apply strided_accepted_not_high in R.
    apply high_mapping_misaligned_iff in Hhigh. congruence.
Qed.

Lemma high_mapping_rejected_witness :
  __arm_ioremap_pfn_caller Sample.up 8 0x100001 0 0x1000 0 Sample.boot
    = Done NULL Sample.boot
  /\ ~ (0x100000 <= __phys_to_pfn (rd [0x40000000] 0)
        /\ (__phys_to_pfn (rd [0x40000000] 0) * PAGE_SIZE)
             mod SUPERSECTION_SIZE <> 0).
Proof.
  split.
  - apply (proj1 (high_mapping_rejected Sample.up 8)).
    + lia.
    + vm_compute. discriminate.
  - apply (proj2 (high_mapping_rejected Sample.up 8)
             1 [0x40000000] [0x4000] None None 0 Sample.boot).
    + vm_compute. discriminate.
    + vm_compute. lia.
Defined.

(** ** C2: validation of the regions of the strided mapper *)

(** The tests other than both-or-neither do what the comment above them
    says: a region with a stride or a bound off a page boundary, an empty
    region, a virtual stride above the physical one, a size that is not a
    multiple of the physical stride, or a wrap of the address space makes the
    call return NULL with nothing changed. *)
Lemma strided_rejects_malformed cfg fuel sections pa ps pst vst mtype s i :
  (i < Z.to_nat sections)%nat ->
  Z.land (Z.lor (Z.lor (Z.lor (rd pa i) (rd ps i)) (stride_or_size vst ps i))
                (stride_or_size pst ps i)) (Word.not PAGE_MASK) <> 0
  \/ rd ps i = 0
  \/ stride_or_size pst ps i < stride_or_size vst ps i
  \/ (stride_or_size pst ps i <> 0
      /\ rd ps i mod stride_or_size pst ps i <> 0)
  \/ Word.sub (Word.add (rd pa i) (rd ps i)) 1 < rd pa i ->
  __arm_multi_strided_ioremap cfg fuel sections pa ps pst vst mtype s
    = Done NULL s.
Proof.
  intros Hi H. apply (strided_refused_null _ _ _ _ _ _ _ _ _ i Hi).
  unfold strided_region_refused.
  destruct (xorb _ _); [reflexivity|].
  match goal with |- (if ?c then _ else _) = _ =>
    assert (Hc : c = true); [|rewrite Hc; reflexivity] end.
  rewrite !orb_true_iff, !andb_true_iff, !negb_true_iff.
  rewrite !Z.eqb_neq, !Z.ltb_lt, Z.eqb_eq. tauto.
Qed.

(** C2, evaluated where the code departs from it: one region of 0x4000
    bytes with a virtual stride of 0x1000 and no physical stride passes the
    validation, and the call goes on to reserve an area and map into it. *)
Theorem strided_one_stride_accepted :
  strided_region_refused [0x40000000] [0x4000] None (Some [0x1000]) 0 = false
  /\ returned (__arm_multi_strided_ioremap Sample.up 8 1 [0x40000000] [0x4000]
                 None (Some [0x1000]) 0 Sample.boot) = Some 0xE0000000
  /\ (vmlist <$> final (__arm_multi_strided_ioremap Sample.up 8 1 [0x40000000]
                          [0x4000] None (Some [0x1000]) 0 Sample.boot))
     = Some [ {| vm_addr := 0xE0000000; vm_size := 0x2000;
                 vm_flags := VM_IOREMAP |} ].
Proof. repeat split; vm_compute; reflexivity. Qed.

(** ** C5: release on failure *)

(** In the single-range path every failure of the dispatched mapper ends
    in a release of the area and a NULL result, and nothing else is done to
    the state the mapper left. *)
Lemma ioremap_pfn_release_on_failure cfg fuel pfn offset size mtype type s
    addr s1 e s2 :
  high_mapping_misaligned pfn = false ->
  get_mem_type cfg mtype = Some type ->
  get_vm_area_caller cfg (PAGE_ALIGN (Word.add offset size)) VM_IOREMAP s
    = (Some addr, s1) ->
  ioremap_dispatch cfg fuel addr pfn (PAGE_ALIGN (Word.add offset size))
    type s1 = Done e s2 ->
  e <> 0 ->
  __arm_ioremap_pfn_caller cfg fuel pfn offset size mtype s
    = Done NULL (vunmap addr s2).
Proof.
  intros Hh Ht Ha Hd He. unfold __arm_ioremap_pfn_caller.
  rewrite Hh, Ht, Ha, Hd.
  apply Z.eqb_neq in He. rewrite He. reflexivity.
Qed.

Lemma vunmap_releases addr s a :
  In a (vmlist (vunmap addr s)) -> vm_addr a <> addr.
Proof.
  unfold vunmap. simpl. intros H.
  apply list_elem_of_In, list_elem_of_filter in H. tauto.
Qed.

(** C5, evaluated where the code departs from it: in the strided mapper
    the first step of a region fails with -ENOMEM, the second step of the
    same region succeeds and overwrites [err], and the call returns the
    area's address with the area still reserved and the first page
    unmapped. *)
Theorem strided_step_failure_lost :
  let cfg := Sample.up_at 0xE01FF000 in
  let run := __arm_multi_strided_ioremap cfg 8 1 [0x40000000] [0x2000]
               (Some [0x1000]) (Some [0x1000]) 0 Sample.starved in
  select_mapping cfg 0x40000 0x1000 0xE01FF000 = Pages
  /\ returned (remap_area_pages 8 0xE01FF000 0x40000 0x1000 Sample.MT_DEVICE
                 (snd (get_vm_area_caller cfg 0x2000 VM_IOREMAP Sample.starved)))
     = Some (- ENOMEM)
  /\ returned run = Some 0xE01FF000
  /\ (vmlist <$> final run)
     = Some [ {| vm_addr := 0xE01FF000; vm_size := 0x3000;
                 vm_flags := VM_IOREMAP |} ]
  /\ ((fun s => init_pgd s !! pgd_index 0xE01FF000) <$> final run) = Some None.
Proof. repeat split; vm_compute; reflexivity. Qed.

(** ** C9: the refresh loop of the lazy synchroniser *)

Lemma lookup_copy_slots src dst (l : list Z) (i : Z) :
  foldr (copy_slot src) dst l !! i
  = if decide (i ∈ l) then src !! i else dst !! i.
Proof.
  induction l as [|j l IH]; simpl.
  - destruct (decide (i ∈ [])) as [H|H]; [inversion H | reflexivity].
  - unfold copy_slot at 1.
    destruct (decide (i = j)) as [->|Hne].
    + destruct (decide (j ∈ j :: l)) as [_|H]; [|exfalso; apply H; left].
      destruct (src !! j) eqn:E.
      * apply lookup_insert_eq.
      * apply lookup_delete_eq.
    + assert (Hl : foldr (copy_slot src) dst l !! i
                   = if decide (i ∈ j :: l) then src !! i else dst !! i).
      { rewrite IH.
        destruct (decide (i ∈ l)) as [H|H];
          destruct (decide (i ∈ j :: l)) as [H'|H']; try reflexivity.
        - exfalso. apply H'. right. exact H.
        - exfalso. apply elem_of_cons in H'. tauto. }
      destruct (src !! j).
      * rewrite lookup_insert_ne by congruence. exact Hl.
      * rewrite lookup_delete_ne by congruence. exact Hl.
Qed.

Lemma lookup_memcpy_pgd dst src first count (i : Z) :
  memcpy_pgd dst src first count !! i
  = if decide (first <= i < first + count) then src !! i else dst !! i.
Proof.
  unfold memcpy_pgd. rewrite lookup_copy_slots.
  destruct (decide (i ∈ seqZ first count)) as [H|H];
    destruct (decide (first <= i < first + count)) as [H'|H'];
    try reflexivity; rewrite elem_of_seqZ in H; lia.
Qed.

Lemma check_kvm_seq_quiet_pass cfg s mm :
  let '(seq, s1, _) := check_kvm_seq_pass cfg quiet s mm in
  s1 = s /\ seq = init_kvm_seq s1.
Proof. simpl. split; reflexivity. Qed.



(** ** C8: the generation counter *)

Lemma cleared_count_app evs1 evs2 :
  cleared_count (evs1 ++ evs2) = cleared_count evs1 + cleared_count evs2.
Proof.
  unfold cleared_count. rewrite List.filter_app, length_app. lia.
Qed.

Lemma wrap_add_l a b : Word.wrap (Word.wrap a + b) = Word.wrap (a + b).
Proof. unfold Word.wrap. apply Z.add_mod_idemp_l. unfold Word.modulus. lia. Qed.

Lemma unmap_pmd_events pgd addr s :
  Word.in_range (init_kvm_seq s) ->
  exists evs,
    trace (unmap_pmd pgd addr s) = trace s ++ evs
    /\ init_kvm_seq (unmap_pmd pgd addr s)
       = Word.wrap (init_kvm_seq s + cleared_count evs).
Proof.
  intros Hr. unfold unmap_pmd.
  destruct (negb (pmd_none (pgd_read s (pmd_offset pgd addr)).1)).
  - destruct (Z.land _ PMD_TYPE_MASK =? PMD_TYPE_TABLE).
    + exists [pmd_cleared (pmd_offset pgd addr);
              pte_table_freed
                (pmd_page_vaddr (pgd_read s (pmd_offset pgd addr)).1)].
      simpl. rewrite <- app_assoc. split; reflexivity.
    + exists [pmd_cleared (pmd_offset pgd addr)]. split; reflexivity.
  - exists []. rewrite app_nil_r. split; [reflexivity|].
    change (cleared_count []) with 0. rewrite Z.add_0_r, wrap_small; auto.
Qed.

Lemma unmap_pmd_no_flush pgd addr s :
  exists evs,
    trace (unmap_pmd pgd addr s) = trace s ++ evs
    /\ Forall (fun e => is_flush e = false) evs.
Proof.
  unfold unmap_pmd.
  destruct (negb (pmd_none (pgd_read s (pmd_offset pgd addr)).1)).
  - destruct (Z.land _ PMD_TYPE_MASK =? PMD_TYPE_TABLE).
    + eexists [_; _]. simpl. rewrite <- app_assoc. simpl.
      split; [reflexivity|]. repeat constructor.
    + eexists [_]. simpl. split; [reflexivity|]. repeat constructor.
  - exists []. rewrite app_nil_r. split; [reflexivity | constructor].
Qed.

Lemma unmap_loop_events n :
  forall pgd addr stop s s',
  Word.in_range (init_kvm_seq s) ->
  unmap_area_sections_loop n pgd addr stop s = Done tt s' ->
  exists evs,
    trace s' = trace s ++ evs
    /\ init_kvm_seq s' = Word.wrap (init_kvm_seq s + cleared_count evs)
    /\ Forall (fun e => is_flush e = false) evs.
Proof.
  induction n as [|n IH]; intros pgd addr stop s s' Hr H; [discriminate|].
  simpl in H.
  destruct (unmap_pmd_events pgd addr s Hr) as (evs1 & Ht1 & Hs1).
  destruct (unmap_pmd_no_flush pgd addr s) as (evs1' & Ht1' & Hf1).
  rewrite Ht1 in Ht1'. apply app_inv_head in Ht1'. subst evs1'.
  destruct (Word.add addr PGDIR_SIZE <? stop).
  - apply IH in H; [|rewrite Hs1; apply wrap_range].
    destruct H as (evs2 & Ht2 & Hs2 & Hf2).
    exists (evs1 ++ evs2). rewrite Ht2, Ht1, Hs2, Hs1, app_assoc.
    split; [reflexivity|]. split.
    + rewrite wrap_add_l, cleared_count_app. f_equal. lia.
    + apply Forall_app. split; assumption.
  - injection H as <-. exists evs1. repeat split; assumption.
Qed.

Lemma sync_active_mm_global cfg s :
  init_kvm_seq (sync_active_mm cfg s) = init_kvm_seq s
  /\ trace (sync_active_mm cfg s) = trace s
  /\ init_pgd (sync_active_mm cfg s) = init_pgd s
  /\ pte_tables (sync_active_mm cfg s) = pte_tables s
  /\ free_pages (sync_active_mm cfg s) = free_pages s
  /\ mm_kvm_seq (active_mm (sync_active_mm cfg s)) = init_kvm_seq s.
Proof.
  unfold sync_active_mm.
  destruct (negb (mm_kvm_seq (active_mm s) =? init_kvm_seq s)) eqn:T; simpl.
  - repeat split; reflexivity.
  - apply negb_false_iff, Z.eqb_eq in T. repeat split; try reflexivity. exact T.
Qed.

Lemma unmap_area_sections_events cfg fuel virt size s s' :
  Word.in_range (init_kvm_seq s) ->
  unmap_area_sections cfg fuel virt size s = Done tt s' ->
  exists evs,
    trace s'
    = trace s
      ++ flush_cache_vunmap virt
           (Word.add virt (Z.land size (Word.not (SZ_1M - 1))))
         :: evs
      ++ [flush_tlb_kernel_range virt
            (Word.add virt (Z.land size (Word.not (SZ_1M - 1))))]
    /\ init_kvm_seq s' = Word.wrap (init_kvm_seq s + cleared_count evs)
    /\ Forall (fun e => is_flush e = false) evs.
Proof.
  intros Hr H. unfold unmap_area_sections in H.
  destruct (unmap_area_sections_loop _ _ _ _ _) as [[] s1| |] eqn:L;
    try discriminate.
  injection H as <-.
  apply unmap_loop_events in L; [|exact Hr].
  destruct L as (evs & Ht & Hs & Hf).
  destruct (sync_active_mm_global cfg s1) as (G1 & G2 & _).
  exists evs. simpl. rewrite G1, G2, Ht, Hs. simpl.
  rewrite <- !app_assoc. simpl. repeat split. exact Hf.
Qed.



(** ** First-level slots under the block mapper *)

Lemma PGDIR_SIZE_val : PGDIR_SIZE = 2097152.
Proof. reflexivity. Qed.

Lemma PAGE_SIZE_val : PAGE_SIZE = 4096.
Proof. reflexivity. Qed.

Lemma modulus_val : Word.modulus = 4294967296.
Proof. reflexivity. Qed.

Ltac word_consts :=
  unfold Word.in_range in *;
  rewrite ?PGDIR_SIZE_val, ?PAGE_SIZE_val, ?modulus_val in *.

Lemma unmap_pmd_read pgd addr s j :
  pgd_read (unmap_pmd pgd addr s) j
  = if decide (j = pgd)
    then (if fst (pgd_read s pgd) =? 0 then pgd_read s pgd else (0, 0))
    else pgd_read s j.
Proof.
  unfold unmap_pmd, pmd_offset, pmd_none.
  destruct (fst (pgd_read s pgd) =? 0) eqn:E; simpl.
  - destruct (decide (j = pgd)) as [->|]; reflexivity.
  - assert (H : pgd_read (pmd_clear pgd s) j
                = if decide (j = pgd) then (0, 0) else pgd_read s j).
    { unfold pmd_clear, pgd_read. simpl.
      destruct (decide (j = pgd)) as [->|Hne].
      - rewrite lookup_insert_eq. reflexivity.
      - rewrite lookup_insert_ne by congruence. reflexivity. }
    destruct (Z.land _ PMD_TYPE_MASK =? PMD_TYPE_TABLE); exact H.
Qed.

Lemma unmap_pmd_keeps_free pgd addr s t :
  (In t (free_pages s) -> In t (free_pages (unmap_pmd pgd addr s)))
  /\ (pte_tables s !! t = None -> pte_tables (unmap_pmd pgd addr s) !! t = None).
Proof.
  unfold unmap_pmd.
  destruct (negb _); [|tauto].
  destruct (Z.land _ PMD_TYPE_MASK =? PMD_TYPE_TABLE); simpl; [|tauto].
  split.
  - intros H. right. exact H.
  - intros H. destruct (decide (t = pmd_page_vaddr (pgd_read s (pmd_offset pgd addr)).1))
      as [->|Hne].
    + apply lookup_delete_eq.
    + rewrite lookup_delete_ne by congruence. exact H.
Qed.


Lemma unmap_units_read m :
  forall pgd s j,
  pgd_read (unmap_units m pgd s) j
  = if decide (pgd <= j < pgd + Z.of_nat m)
    then (if fst (pgd_read s j) =? 0 then pgd_read s j else (0, 0))
    else pgd_read s j.
Proof.
  induction m as [|m IH]; intros pgd s j.
  - simpl. destruct (decide _); [lia | reflexivity].
  - cbn [unmap_units]. rewrite IH, !unmap_pmd_read.
    destruct (decide (j = pgd)) as [->|Hne].
    + destruct (decide (pgd + 1 <= pgd < _)); [lia|].
      destruct (decide (pgd <= pgd < _)); [reflexivity | lia].
    + destruct (decide (pgd + 1 <= j < pgd + 1 + Z.of_nat m));
        destruct (decide (pgd <= j < pgd + Z.of_nat (S m)));
        try reflexivity; lia.
Qed.

Lemma unmap_units_keeps_free m :
  forall pgd s t,
  (In t (free_pages s) -> In t (free_pages (unmap_units m pgd s)))
  /\ (pte_tables s !! t = None -> pte_tables (unmap_units m pgd s) !! t = None).
Proof.
  induction m as [|m IH]; intros pgd s t; [simpl; tauto|].
  cbn [unmap_units].
  destruct (IH (pgd + 1) (unmap_pmd pgd 0 s) t) as [I1 I2].
  destruct (unmap_pmd_keeps_free pgd 0 s t) as [P1 P2].
  split; auto.
Qed.


Lemma unmap_loop_units n :
  forall pgd addr stop s,
  0 <= addr -> addr + PGDIR_SIZE < Word.modulus ->
  stop + PGDIR_SIZE < Word.modulus ->
  (1 <= n)%nat -> stop - addr <= Z.of_nat n * PGDIR_SIZE ->
  exists m,
    (1 <= m)%nat
    /\ unmap_area_sections_loop n pgd addr stop s
       = Done tt (unmap_units m pgd s)
    /\ (forall k, 0 <= k -> k = 0 \/ addr + k * PGDIR_SIZE < stop ->
        k < Z.of_nat m).
Proof.
  induction n as [|n IH]; intros pgd addr stop s Ha Hb Hs Hn Hfuel; [lia|].
  cbn [unmap_area_sections_loop].
  assert (Hadd : Word.add addr PGDIR_SIZE = addr + PGDIR_SIZE).
  { unfold Word.add. apply wrap_small. word_consts. lia. }
  rewrite Hadd.
  destruct (addr + PGDIR_SIZE <? stop) eqn:T.
  - apply Z.ltb_lt in T.
    destruct (IH (pgd + 1) (addr + PGDIR_SIZE) stop (unmap_pmd pgd addr s))
      as (m & Hm & Hrun & Hk);
      try (word_consts; lia).
    exists (S m). split; [lia|]. split; [exact Hrun|].
    intros k Hk0 Hkr.
    destruct (Z.eq_dec k 0) as [->|Hk1]; [lia|].
    assert (k - 1 < Z.of_nat m); [|lia].
    apply Hk; [lia|].
    destruct (Z.eq_dec (k - 1) 0); [left; assumption|right].
    destruct Hkr as [|Hkr]; [lia|]. lia.
  - apply Z.ltb_ge in T. exists 1%nat. split; [lia|]. split; [reflexivity|].
    intros k Hk0 [->|Hkr]; [lia|].
    word_consts. lia.
Qed.

(** ** C7: teardown of block mappings *)

Lemma land_le a b : 0 <= a -> 0 <= Z.land a b <= a.
Proof.
  intros Ha. split; [apply Z.land_nonneg; left; exact Ha|].
  pose proof (Z.add_lor_land (Z.ldiff a b) (Z.land a b)) as H.
  rewrite Z.lor_ldiff_and in H.
  rewrite (Z.land_comm a b), Z.land_assoc, Z.land_ldiff, Z.land_0_l in H.
  assert (0 <= Z.ldiff a b) by (apply Z.ldiff_nonneg; left; exact Ha).
  rewrite (Z.land_comm b a) in H. lia.
Qed.


Lemma unmap_area_sections_runs cfg fuel virt size s :
  0 <= virt -> 0 <= size -> virt + size + PGDIR_SIZE < Word.modulus ->
  (1 <= fuel)%nat -> size <= Z.of_nat fuel * PGDIR_SIZE ->
  let stop := virt + Z.land size (Word.not (SZ_1M - 1)) in
  exists m,
    (1 <= m)%nat
    /\ unmap_area_sections cfg fuel virt size s
       = Done tt
           (emit (flush_tlb_kernel_range virt stop)
              (sync_active_mm cfg
                 (unmap_units m (pgd_index virt)
                    (emit (flush_cache_vunmap virt stop) s))))
    /\ (forall k, 0 <= k -> k = 0 \/ virt + k * PGDIR_SIZE < stop ->
        k < Z.of_nat m).
Proof.
  intros Hv Hs Hr Hf Hfuel stop.
  pose proof (land_le size (Word.not (SZ_1M - 1)) Hs) as Hm.
  assert (Hstop : Word.add virt (Z.land size (Word.not (SZ_1M - 1))) = stop).
  { unfold Word.add. apply wrap_small. word_consts. lia. }
  unfold unmap_area_sections. rewrite Hstop.
  destruct (unmap_loop_units fuel (pgd_index virt) virt stop
              (emit (flush_cache_vunmap virt stop) s))
    as (m & Hm1 & Hrun & Hk);
    try (subst stop; word_consts; lia).
  exists m. rewrite Hrun. repeat split; assumption.
Qed.


(** ** C6: section mappings *)

Lemma pfn_to_phys_wrap a b :
  __pfn_to_phys (Word.wrap a + b) = __pfn_to_phys (a + b).
Proof.
  unfold __pfn_to_phys, Word.shl, Word.wrap.
  rewrite !Z.shiftl_mul_pow2 by (unfold PAGE_SHIFT; lia).
  rewrite <- (Z.mul_mod_idemp_l (_ mod _ + b)) by (unfold Word.modulus; lia).
  rewrite Z.add_mod_idemp_l by (unfold Word.modulus; lia).
  rewrite Z.mul_mod_idemp_l by (unfold Word.modulus; lia).
  reflexivity.
Qed.

Lemma section_unit_read pgd pfn type s j :
  pgd_read (section_unit pgd pfn type s) j
  = if decide (j = pgd)
    then (Z.lor (__pfn_to_phys pfn) (prot_sect type),
          Z.lor (__pfn_to_phys (pfn + Z.shiftr SZ_1M PAGE_SHIFT))
                (prot_sect type))
    else pgd_read s j.
Proof.
  unfold section_unit, pmd_write0, pmd_write1, pgd_read. simpl.
  destruct (decide (j = pgd)) as [->|Hne].
  - rewrite !lookup_insert_eq. simpl.
    unfold Word.add. rewrite <- (Z.add_0_r (Word.wrap _)).
    rewrite pfn_to_phys_wrap, Z.add_0_r. reflexivity.
  - rewrite !lookup_insert_ne by congruence. reflexivity.
Qed.

Lemma section_units_outside m :
  forall pgd pfn type s j,
  ~ (pgd <= j < pgd + Z.of_nat m) ->
  pgd_read (section_units m pgd pfn type s) j = pgd_read s j.
Proof.
  induction m as [|m IH]; intros pgd pfn type s j Hj; [reflexivity|].
  cbn [section_units]. rewrite IH by lia. rewrite section_unit_read.
  destruct (decide (j = pgd)); [lia | reflexivity].
Qed.

Lemma section_units_read m :
  forall pgd pfn type s k,
  0 <= k < Z.of_nat m ->
  pgd_read (section_units m pgd pfn type s) (pgd + k)
  = (Z.lor (__pfn_to_phys (pfn + k * (2 * Z.shiftr SZ_1M PAGE_SHIFT)))
           (prot_sect type),
     Z.lor (__pfn_to_phys (pfn + k * (2 * Z.shiftr SZ_1M PAGE_SHIFT)
                           + Z.shiftr SZ_1M PAGE_SHIFT))
           (prot_sect type)).
Proof.
  induction m as [|m IH]; intros pgd pfn type s k Hk; [lia|].
  cbn [section_units].
  destruct (Z.eq_dec k 0) as [->|Hk0].
  - rewrite Z.add_0_r, section_units_outside by lia.
    rewrite section_unit_read.
    destruct (decide (pgd = pgd)); [|congruence].
    rewrite Z.mul_0_l, Z.add_0_r. reflexivity.
  - replace (pgd + k) with (pgd + 1 + (k - 1)) by lia.
    rewrite IH by lia.
    unfold Word.add.
    rewrite <- !Z.add_assoc, !pfn_to_phys_wrap.
    rewrite <- !Z.add_assoc, !pfn_to_phys_wrap.
    f_equal; f_equal; f_equal; lia.
Qed.

Lemma remap_sections_loop_units m :
  forall n pgd addr pfn type s,
  (1 <= m <= n)%nat -> 0 <= addr ->
  addr + Z.of_nat m * PGDIR_SIZE < Word.modulus ->
  remap_area_sections_loop n pgd addr (addr + Z.of_nat m * PGDIR_SIZE)
    pfn type s
  = Done 0 (section_units m pgd pfn type s).
Proof.
  induction m as [|m IH]; intros n pgd addr pfn type s Hm Ha Hr; [lia|].
  destruct n as [|n]; [lia|].
  cbn [remap_area_sections_loop section_units pmd_offset].
  assert (Hadd : Word.add addr PGDIR_SIZE = addr + PGDIR_SIZE).
  { unfold Word.add. apply wrap_small. word_consts. lia. }
  rewrite Hadd. fold (section_unit pgd pfn type s).
  destruct m as [|m].
  - replace (addr + Z.of_nat 1 * PGDIR_SIZE) with (addr + PGDIR_SIZE) by lia.
    rewrite Z.ltb_irrefl. reflexivity.
  - assert (T : (addr + PGDIR_SIZE <? addr + Z.of_nat (S (S m)) * PGDIR_SIZE)
                = true) by (apply Z.ltb_lt; word_consts; lia).
    rewrite T.
    replace (addr + Z.of_nat (S (S m)) * PGDIR_SIZE)
      with (addr + PGDIR_SIZE + Z.of_nat (S m) * PGDIR_SIZE) by lia.
    apply IH; try (word_consts; lia).
Qed.

Lemma pgd_index_unit virt k :
  pgd_index (virt + k * PGDIR_SIZE) = pgd_index virt + k.
Proof.
  unfold pgd_index. rewrite !Z.shiftr_div_pow2 by (unfold PGDIR_SHIFT; lia).
  change PGDIR_SIZE with (2 ^ PGDIR_SHIFT).
  apply Z.div_add. unfold PGDIR_SHIFT. lia.
Qed.

(** C6: over a range of [m] 2MB units, [remap_area_sections] returns 0 and
    leaves, in the first-level slot of unit [k], two section entries: the
    first translates the lower megabyte to frame [pfn + 512 k], the second
    the upper megabyte to the frame 256 pages (one megabyte) further; the
    frame number thus moves on by 256 between the two writes and by 256
    again before the next unit. *)
Theorem remap_area_sections_pairs cfg fuel virt pfn size type s m :
  0 <= virt -> (1 <= m <= fuel)%nat ->
  size = Z.of_nat m * PGDIR_SIZE ->
  virt + size + PGDIR_SIZE < Word.modulus ->
  exists s',
    remap_area_sections cfg fuel virt pfn size type s = Done 0 s'
    /\ forall k, 0 <= k < Z.of_nat m ->
       pgd_read s' (pgd_index (virt + k * PGDIR_SIZE))
       = (Z.lor (__pfn_to_phys (pfn + k * (2 * Z.shiftr SZ_1M PAGE_SHIFT)))
                (prot_sect type),
          Z.lor (__pfn_to_phys (pfn + k * (2 * Z.shiftr SZ_1M PAGE_SHIFT)
                                + Z.shiftr SZ_1M PAGE_SHIFT))
                (prot_sect type)).
Proof.
  intros Hv Hm Hsize Hr.
  destruct (unmap_area_sections_runs cfg fuel virt size s)
    as (u & _ & Hrun & _); try (word_consts; lia).
  unfold remap_area_sections, bind. rewrite Hrun.
  assert (Hstop : Word.add virt size = virt + Z.of_nat m * PGDIR_SIZE).
  { unfold Word.add. rewrite wrap_small by (word_consts; lia). lia. }
  rewrite Hstop, remap_sections_loop_units by (word_consts; lia).
  eexists. split; [reflexivity|].
  intros k Hk. rewrite pgd_index_unit. apply section_units_read. exact Hk.
Qed.

(** ** C3: the populator never overwrites a leaf entry *)

Lemma pte_read_set pte v s q :
  pte_read (set_pte_ext pte v s) q
  = if decide (q = pte) then v else pte_read s q.
Proof.
  unfold pte_read, set_pte_ext. simpl.
  destruct q as [t i], pte as [t0 i0]. simpl.
  destruct (decide (t = t0)) as [->|Ht].
  - rewrite lookup_insert_eq. simpl.
    destruct (decide (i = i0)) as [->|Hi].
    + rewrite lookup_insert_eq.
      destruct (decide ((t0, i0) = (t0, i0))); [reflexivity | congruence].
    + rewrite lookup_insert_ne by congruence.
      destruct (decide ((t0, i) = (t0, i0))); [congruence | reflexivity].
  - rewrite lookup_insert_ne by congruence.
    destruct (decide ((t, i) = (t0, i0))); [congruence | reflexivity].
Qed.

Lemma pte_loop_preserves n :
  forall pte addr stop phys prot s s',
  final (remap_area_pte_loop n pte addr stop phys prot s) = Some s' ->
  forall q, pte_read s q <> 0 -> pte_read s' q = pte_read s q.
Proof.
  induction n as [|n IH]; intros pte addr stop phys prot s s' H q Hq;
    [discriminate|].
  cbn [remap_area_pte_loop] in H. unfold pte_none in H.
  destruct (pte_read s pte =? 0) eqn:E; simpl in H.
  - apply Z.eqb_eq in E.
    assert (Hne : q <> pte) by congruence.
    set (s1 := set_pte_ext pte (pfn_pte (Z.shiftr phys PAGE_SHIFT) prot) s) in *.
    assert (R : pte_read s1 q = pte_read s q).
    { subst s1. rewrite pte_read_set.
      destruct (decide (q = pte)); [contradiction | reflexivity]. }
    destruct (negb (Word.add addr PAGE_SIZE =? stop)).
    + rewrite <- R. eapply IH; [exact H | rewrite R; exact Hq].
    + injection H as <-. exact R.
  - injection H as <-. reflexivity.
Qed.

Lemma pte_alloc_preserves pmd addr s :
  free_pages_unused s ->
  forall q, pte_read (snd (pte_alloc_kernel pmd addr s)) q = pte_read s q.
Proof.
  intros Hfree q. unfold pte_alloc_kernel.
  destruct (pmd_none _); [|reflexivity].
  destruct (free_pages s) as [|t rest] eqn:F; [reflexivity|].
  simpl. unfold pte_read. simpl.
  assert (Ht : pte_tables s !! t = None) by (apply Hfree; rewrite F; left; reflexivity).
  destruct (decide (fst q = t)) as [->|Hne].
  - rewrite lookup_insert_eq, Ht. reflexivity.
  - rewrite lookup_insert_ne by congruence. reflexivity.
Qed.

Lemma pte_loop_conflict n :
  forall k pte addr stop phys prot s,
  0 <= k < Z.of_nat n ->
  pte_read s (fst pte, snd pte + k) <> 0 ->
  (forall j, 1 <= j <= k -> Word.add addr (j * PAGE_SIZE) <> stop) ->
  exists s', remap_area_pte_loop n pte addr stop phys prot s = Bug s'.
Proof.
  induction n as [|n IH]; intros k pte addr stop phys prot s Hk Hocc Hrun;
    [lia|].
  cbn [remap_area_pte_loop]. unfold pte_none.
  destruct (pte_read s pte =? 0) eqn:E; simpl; [|eexists; reflexivity].
  apply Z.eqb_eq in E.
  destruct (Z.eq_dec k 0) as [->|Hk0].
  { rewrite Z.add_0_r in Hocc. destruct pte. contradiction. }
  assert (Hstep : Word.add addr PAGE_SIZE <> stop).
  { specialize (Hrun 1). rewrite Z.mul_1_l in Hrun. apply Hrun. lia. }
  apply Z.eqb_neq in Hstep. rewrite Hstep. simpl.
  apply (IH (k - 1)).
  - lia.
  - simpl. rewrite pte_read_set.
    destruct (decide (_ = pte)) as [Heq|_].
    + destruct pte as [t i]. simpl in Heq. injection Heq. lia.
    + replace (snd pte + 1 + (k - 1)) with (snd pte + k) by lia. exact Hocc.
  - intros j Hj. unfold Word.add at 1 2. rewrite wrap_add_l.
    specialize (Hrun (j + 1)). unfold Word.add in Hrun.
    replace (addr + PAGE_SIZE + j * PAGE_SIZE)
      with (addr + (j + 1) * PAGE_SIZE) by lia.
    apply Hrun. lia.
Qed.

(** C3: whatever [remap_area_pte] does (return 0, return -ENOMEM, or stop
    in [BUG()]), every leaf slot that held an entry before the call holds
    the same entry in the state it leaves; and when the slot of some page
    of the range already holds an entry, the call does not return at all:
    it ends in [BUG()]. *)
Theorem remap_area_pte_no_overwrite fuel pmd addr stop phys type s :
  free_pages_unused s ->
  (forall s', final (remap_area_pte fuel pmd addr stop phys type s) = Some s' ->
     forall q, pte_read s q <> 0 -> pte_read s' q = pte_read s q)
  /\ (forall pte s1 k,
        pte_alloc_kernel pmd addr s = (Some pte, s1) ->
        0 <= k < Z.of_nat fuel ->
        0 <= addr -> stop < Word.modulus -> addr + k * PAGE_SIZE < stop ->
        pte_read s (fst pte, snd pte + k) <> 0 ->
        exists s', remap_area_pte fuel pmd addr stop phys type s = Bug s').
Proof.
  intros Hfree. split.
  - intros s' H q Hq. unfold remap_area_pte in H.
    pose proof (pte_alloc_preserves pmd addr s Hfree) as Ha.
    destruct (pte_alloc_kernel pmd addr s) as [[pte|] s1]; simpl in Ha.
    + rewrite <- (Ha q). eapply pte_loop_preserves; [exact H|].
      rewrite Ha. exact Hq.
    + injection H as <-. apply Ha.
  - intros pte s1 k Halloc Hk Ha Hs Hin Hocc. unfold remap_area_pte.
    pose proof (pte_alloc_preserves pmd addr s Hfree) as Hp.
    rewrite Halloc in *. simpl in Hp.
    apply (pte_loop_conflict fuel k); [exact Hk | rewrite Hp; exact Hocc |].
    intros j Hj. unfold Word.add.
    rewrite wrap_small by (word_consts; lia). word_consts. lia.
Qed.

Lemma remap_area_pte_no_overwrite_witness :
  free_pages_unused Sample.occupied
  /\ (exists s',
        remap_area_pte 8 1792 0xE0000000 0xE0002000 0x20000000
          Sample.MT_DEVICE Sample.occupied = Bug s')
  /\ (forall s',
        final (remap_area_pte 8 1792 0xE0000000 0xE0002000 0x20000000
                 Sample.MT_DEVICE Sample.occupied) = Some s' ->
        forall q, pte_read Sample.occupied q <> 0 ->
        pte_read s' q = pte_read Sample.occupied q).
Proof.
  assert (Hfree : free_pages_unused Sample.occupied).
  { intros t [<-|[]]. vm_compute. reflexivity. }
  destruct (remap_area_pte_no_overwrite 8 1792 0xE0000000 0xE0002000
              0x20000000 Sample.MT_DEVICE Sample.occupied Hfree) as [P1 P2].
  split; [exact Hfree|]. split; [|exact P1].
  apply (P2 (0x8000, 0) Sample.occupied 1).
  - vm_compute. reflexivity.
  - lia.
  - lia.
  - vm_compute. reflexivity.
  - vm_compute. reflexivity.
  - vm_compute. discriminate.
Defined.


Lemma remap_area_sections_pairs_witness :
  0 <= 0xE0000000 /\ (1 <= 2 <= 8)%nat
  /\ 0x400000 = Z.of_nat 2 * PGDIR_SIZE
  /\ 0xE0000000 + 0x400000 + PGDIR_SIZE < Word.modulus
  /\ exists s',
       remap_area_sections Sample.up 8 0xE0000000 0x10000 0x400000
         Sample.MT_DEVICE Sample.boot = Done 0 s'
       /\ pgd_read s' 1792 = (0x10000412, 0x10100412)
       /\ pgd_read s' 1793 = (0x10200412, 0x10300412).
Proof.
  assert (H1 : 0 <= 0xE0000000) by lia.
  assert (H2 : (1 <= 2 <= 8)%nat) by lia.
  assert (H3 : 0x400000 = Z.of_nat 2 * PGDIR_SIZE) by reflexivity.
  assert (H4 : 0xE0000000 + 0x400000 + PGDIR_SIZE < Word.modulus)
    by (vm_compute; reflexivity).
  repeat (split; [assumption|]).
  destruct (remap_area_sections_pairs Sample.up 8 0xE0000000 0x10000 0x400000
              Sample.MT_DEVICE Sample.boot 2 H1 H2 H3 H4) as (s' & Hrun & Hk).
  exists s'. split; [exact Hrun|]. split.
  - apply (Hk 0). lia.
  - apply (Hk 1). lia.
Defined.

(** On this architecture a physical address is 32 bits wide, so the frame
    numbers that [__arm_ioremap_caller] and [__arm_multi_strided_ioremap]
    derive from one are all below the threshold of the high-mapping check;
    frame numbers at or above it come in through [__arm_ioremap_pfn]. *)
Lemma phys_to_pfn_below_threshold paddr :
  Word.in_range paddr -> __phys_to_pfn paddr < 0x100000.
Proof.
  unfold Word.in_range, __phys_to_pfn. intros H.
  rewrite Z.shiftr_div_pow2 by (unfold PAGE_SHIFT; lia).
  apply Z.div_lt_upper_bound; [unfold PAGE_SHIFT; lia|].
  rewrite modulus_val in H. unfold PAGE_SHIFT. lia.
Qed.

(** * Further properties of the code *)

(** ** Masks *)

Lemma land_not_ones x n :
  Word.in_range x -> 0 <= n ->
  Z.land x (Z.ldiff (Z.ones 32) (Z.ones n)) = x - x mod 2 ^ n.
Proof.
  intros Hx Hn.
  rewrite Z.ldiff_land, Z.land_assoc, (Z.land_ones x 32) by lia.
  rewrite Z.mod_small by exact Hx.
  rewrite <- Z.ldiff_land, Z.ldiff_ones_r by exact Hn.
  rewrite Z.shiftl_mul_pow2, Z.shiftr_div_pow2 by exact Hn.
  pose proof (Z.div_mod x (2 ^ n)) as D.
  assert (0 < 2 ^ n) by (apply Z.pow_pos_nonneg; lia). lia.
Qed.

Lemma land_PAGE_MASK x :
  Word.in_range x -> Z.land PAGE_MASK x = x - x mod PAGE_SIZE.
Proof.
  intros Hx. rewrite Z.land_comm.
  change PAGE_MASK with (Z.ldiff (Z.ones 32) (Z.ones 12)).
  apply (land_not_ones x 12 Hx). lia.
Qed.

Lemma land_1M_mask x :
  Word.in_range x -> Z.land x (Word.not (SZ_1M - 1)) = x - x mod SZ_1M.
Proof.
  intros Hx.
  change (Word.not (SZ_1M - 1)) with (Z.ldiff (Z.ones 32) (Z.ones 20)).
  apply (land_not_ones x 20 Hx). lia.
Qed.

Lemma pmd_page_vaddr_table t :
  Word.in_range t -> t mod PAGE_SIZE = 0 ->
  pmd_page_vaddr (Z.lor t _PAGE_KERNEL_TABLE) = t.
Proof.
  intros Ht Ha. unfold pmd_page_vaddr.
  change (Word.not (PTRS_PER_PTE * 4 - 1))
    with (Z.ldiff (Z.ones 32) (Z.ones 11)).
  rewrite Z.ldiff_land, Z.land_assoc, Z.land_lor_distr_l.
  rewrite (Z.land_ones t 32), Z.mod_small by (exact Ht || lia).
  change (Z.land _PAGE_KERNEL_TABLE (Z.ones 32)) with _PAGE_KERNEL_TABLE.
  rewrite <- Z.ldiff_land, Z.ldiff_ones_r by lia.
  rewrite Z.shiftr_lor.
  change (Z.shiftr _PAGE_KERNEL_TABLE 11) with 0. rewrite Z.lor_0_r.
  rewrite Z.shiftl_mul_pow2, Z.shiftr_div_pow2 by lia.
  rewrite PAGE_SIZE_val in Ha.
  pose proof (Z.div_mod t (2 ^ 11)) as D.
  assert (t mod 2 ^ 11 = 0).
  { rewrite <- (Z.mod_mod_divide t 4096 (2 ^ 11)) by (exists 2; reflexivity).
    rewrite Ha. reflexivity. }
  lia.
Qed.

(** ** Page-granularity population within one first-level unit *)

Lemma pfn_to_phys_mul x : __pfn_to_phys x = Word.wrap (x * PAGE_SIZE).
Proof.
  unfold __pfn_to_phys, Word.shl.
  rewrite Z.shiftl_mul_pow2 by (unfold PAGE_SHIFT; lia). reflexivity.
Qed.

Lemma pfn_to_phys_step pfn k :
  Word.wrap (__pfn_to_phys pfn + k * PAGE_SIZE) = __pfn_to_phys (pfn + k).
Proof.
  rewrite !pfn_to_phys_mul, wrap_add_l. f_equal. lia.
Qed.

Lemma pfn_to_phys_of_frame x :
  __pfn_to_phys (Z.shiftr (__pfn_to_phys x) PAGE_SHIFT) = __pfn_to_phys x.
Proof.
  rewrite (pfn_to_phys_mul (Z.shiftr _ _)).
  rewrite Z.shiftr_div_pow2 by (unfold PAGE_SHIFT; lia).
  change (2 ^ PAGE_SHIFT) with PAGE_SIZE.
  assert (A : __pfn_to_phys x mod PAGE_SIZE = 0).
  { rewrite pfn_to_phys_mul. unfold Word.wrap.
    rewrite Z.mod_mod_divide by (exists (2 ^ 20); reflexivity).
    apply Z.mod_mul. rewrite PAGE_SIZE_val. lia. }
  pose proof (Z.div_mod (__pfn_to_phys x) PAGE_SIZE) as D.
  rewrite PAGE_SIZE_val in *.
  replace (__pfn_to_phys x / 4096 * 4096) with (__pfn_to_phys x) by lia.
  apply wrap_small. rewrite pfn_to_phys_mul. apply wrap_range.
Qed.

Lemma remap_pte_loop_state n :
  forall pte addr stop phys prot s r s',
  remap_area_pte_loop n pte addr stop phys prot s = Done r s' ->
  exists f, s' = set_pte_tables f s.
Proof.
  induction n as [|n IH]; intros pte addr stop phys prot s r s' H;
    [discriminate|].
  cbn [remap_area_pte_loop] in H.
  destruct (negb (pte_none (pte_read s pte))); [discriminate|].
  destruct (negb (Word.add addr PAGE_SIZE =? stop)).
  - apply IH in H. destruct H as (f & ->).
    exists (fun m =>
              f (<[fst pte :=
                     <[snd pte := pfn_pte (Z.shiftr phys PAGE_SHIFT) prot]>
                       (default ∅ (m !! fst pte))]> m)).
    reflexivity.
  - injection H as _ <-.
    exists (fun m =>
              <[fst pte :=
                  <[snd pte := pfn_pte (Z.shiftr phys PAGE_SHIFT) prot]>
                    (default ∅ (m !! fst pte))]> m).
    reflexivity.
Qed.

Lemma remap_pte_loop_fills m :
  forall n pte addr phys prot s,
  (1 <= m <= n)%nat -> 0 <= addr ->
  addr + Z.of_nat m * PAGE_SIZE < Word.modulus ->
  Word.in_range phys ->
  (forall k, 0 <= k < Z.of_nat m -> pte_read s (fst pte, snd pte + k) = 0) ->
  exists s',
    remap_area_pte_loop n pte addr (addr + Z.of_nat m * PAGE_SIZE) phys prot s
      = Done 0 s'
    /\ (forall k, 0 <= k < Z.of_nat m ->
        pte_read s' (fst pte, snd pte + k)
        = pfn_pte (Z.shiftr (Word.wrap (phys + k * PAGE_SIZE)) PAGE_SHIFT) prot)
    /\ (forall q,
        fst q <> fst pte \/ snd q < snd pte \/ snd pte + Z.of_nat m <= snd q ->
        pte_read s' q = pte_read s q).
Proof.
  induction m as [|m IH]; intros n pte addr phys prot s Hm Ha Hr Hp Hempty;
    [lia|].
  destruct n as [|n]; [lia|].
  cbn [remap_area_pte_loop]. unfold pte_none.
  assert (E0 : pte_read s pte = 0).
  { specialize (Hempty 0 ltac:(lia)). rewrite Z.add_0_r in Hempty.
    destruct pte. exact Hempty. }
  rewrite E0. cbn [Z.eqb negb].
  assert (Hadd : Word.add addr PAGE_SIZE = addr + PAGE_SIZE).
  { unfold Word.add. apply wrap_small. word_consts. lia. }
  rewrite Hadd.
  set (s1 := set_pte_ext pte (pfn_pte (Z.shiftr phys PAGE_SHIFT) prot) s).
  assert (R1 : forall q, q <> pte -> pte_read s1 q = pte_read s q).
  { intros q Hq. subst s1. rewrite pte_read_set.
    destruct (decide (q = pte)); [contradiction | reflexivity]. }
  assert (W1 : pte_read s1 pte = pfn_pte (Z.shiftr phys PAGE_SHIFT) prot).
  { subst s1. rewrite pte_read_set.
    destruct (decide (pte = pte)); [reflexivity | congruence]. }
  destruct m as [|m].
  - replace (addr + Z.of_nat 1 * PAGE_SIZE) with (addr + PAGE_SIZE) by lia.
    rewrite Z.eqb_refl. cbn [negb].
    exists s1. split; [reflexivity|]. split.
    + intros k Hk. assert (k = 0) as -> by lia.
      rewrite ?Z.add_0_r, ?Z.mul_0_l, ?Z.add_0_r, wrap_small by exact Hp.
      destruct pte. exact W1.
    + intros q Hq. apply R1. destruct q, pte. simpl in *.
      intros Heq. injection Heq as -> ->. lia.
  - assert (T : (addr + PAGE_SIZE =? addr + Z.of_nat (S (S m)) * PAGE_SIZE)
                = false) by (apply Z.eqb_neq; word_consts; lia).
    rewrite T. cbn [negb].
    replace (addr + Z.of_nat (S (S m)) * PAGE_SIZE)
      with (addr + PAGE_SIZE + Z.of_nat (S m) * PAGE_SIZE) by lia.
    destruct (IH n (fst pte, snd pte + 1) (addr + PAGE_SIZE)
                (Word.add phys PAGE_SIZE) prot s1)
      as (s' & Hrun & Hfill & Hframe).
    + lia.
    + word_consts. lia.
    + word_consts. lia.
    + apply wrap_range.
    + intros k Hk. cbn [fst snd]. rewrite R1.
      * replace (snd pte + 1 + k) with (snd pte + (1 + k)) by lia.
        apply Hempty. lia.
      * destruct pte. simpl. intros Heq. injection Heq. lia.
    + exists s'. split; [exact Hrun|]. split.
      * intros k Hk. destruct (Z.eq_dec k 0) as [->|Hk0].
        -- rewrite Hframe by (cbn [fst snd]; lia).
           rewrite ?Z.add_0_r, ?Z.mul_0_l, ?Z.add_0_r, wrap_small by exact Hp.
           destruct pte. exact W1.
        -- specialize (Hfill (k - 1) ltac:(lia)). cbn [fst snd] in Hfill.
           replace (snd pte + 1 + (k - 1)) with (snd pte + k) in Hfill by lia.
           rewrite Hfill. unfold Word.add. rewrite wrap_add_l.
           do 3 f_equal. lia.
      * intros q Hq. rewrite Hframe by (cbn [fst snd]; lia).
        apply R1. destruct q, pte. simpl in *.
        intros Heq. injection Heq as -> ->. lia.
Qed.

Lemma land_PGDIR_MASK x :
  Word.in_range x -> Z.land x PGDIR_MASK = x - x mod PGDIR_SIZE.
Proof.
  intros Hx.
  change PGDIR_MASK with (Z.ldiff (Z.ones 32) (Z.ones 21)).
  apply (land_not_ones x 21 Hx). lia.
Qed.

Lemma pgd_addr_end_inside addr stop :
  0 <= addr -> addr < stop -> stop + PGDIR_SIZE < Word.modulus ->
  stop <= addr - addr mod PGDIR_SIZE + PGDIR_SIZE ->
  pgd_addr_end addr stop = stop.
Proof.
  intros Ha Hlt Hs Hin. unfold pgd_addr_end.
  assert (Hadd : Word.add addr PGDIR_SIZE = addr + PGDIR_SIZE).
  { unfold Word.add. apply wrap_small. word_consts. lia. }
  rewrite Hadd, land_PGDIR_MASK by (word_consts; lia).
  replace ((addr + PGDIR_SIZE) mod PGDIR_SIZE) with (addr mod PGDIR_SIZE).
  2:{ rewrite <- (Z.mul_1_l PGDIR_SIZE) at 2.
      rewrite Z.mod_add by (rewrite PGDIR_SIZE_val; lia). reflexivity. }
  pose proof (Z.mod_pos_bound addr PGDIR_SIZE) as B.
  unfold Word.sub.
  rewrite !wrap_small by (word_consts; lia).
  destruct (_ <? _) eqn:T; [|reflexivity].
  apply Z.ltb_lt in T. lia.
Qed.

Lemma unit_indices start k m :
  0 <= start -> start mod PGDIR_SIZE + m * PAGE_SIZE <= PGDIR_SIZE ->
  0 <= k < m ->
  pgd_index (start + k * PAGE_SIZE) = pgd_index start
  /\ __pte_index (start + k * PAGE_SIZE) = __pte_index start + k.
Proof.
  intros Hs Hu Hk. unfold pgd_index, __pte_index.
  change (PTRS_PER_PTE - 1) with (Z.ones 9).
  rewrite !Z.land_ones, !Z.shiftr_div_pow2
    by (unfold PGDIR_SHIFT, PAGE_SHIFT; lia).
  rewrite PGDIR_SIZE_val, PAGE_SIZE_val in *.
  change (2 ^ PGDIR_SHIFT) with 2097152. change (2 ^ PAGE_SHIFT) with 4096.
  change (2 ^ 9) with 512.
  rewrite Z.div_add by lia.
  split.
  - symmetry. apply Z.div_unique with (r := start mod 2097152 + k * 4096).
    + left. pose proof (Z.mod_pos_bound start 2097152 ltac:(lia)). lia.
    + pose proof (Z.div_mod start 2097152 ltac:(lia)). lia.
  - pose proof (Z.div_mod start 2097152 ltac:(lia)) as D21.
    pose proof (Z.mod_pos_bound start 2097152 ltac:(lia)) as B21.
    pose proof (Z.div_mod start 4096 ltac:(lia)) as D12.
    pose proof (Z.mod_pos_bound start 4096 ltac:(lia)) as B12.
    pose proof (Z.div_mod (start / 4096) 512 ltac:(lia)) as D9.
    pose proof (Z.mod_pos_bound (start / 4096) 512 ltac:(lia)) as B9.
    assert (Q : start / 4096 / 512 = start / 2097152)
      by (rewrite Z.div_div by lia; reflexivity).
    symmetry.
    apply Z.mod_unique with (q := start / 4096 / 512); lia.
Qed.

Lemma remap_area_pages_is_pte fuel start pfn size type s :
  (1 <= fuel)%nat -> 0 <= start -> 0 < size ->
  start + size + PGDIR_SIZE < Word.modulus ->
  start mod PGDIR_SIZE + size <= PGDIR_SIZE ->
  remap_area_pages fuel start pfn size type s
  = remap_area_pte fuel (pgd_index start) start (start + size)
      (__pfn_to_phys pfn) type s.
Proof.
  intros Hf Hs Hsz Hr Hu. unfold remap_area_pages.
  assert (Hstop : Word.add start size = start + size).
  { unfold Word.add. apply wrap_small. word_consts. lia. }
  rewrite Hstop.
  assert (T : (start + size <=? start) = false) by (apply Z.leb_gt; lia).
  rewrite T.
  destruct fuel as [|n]; [lia|].
  cbn [remap_area_pages_loop].
  rewrite pgd_addr_end_inside by lia.
  unfold remap_area_pmd, pmd_alloc.
  cbn [remap_area_pmd_loop]. unfold pmd_addr_end.
  destruct (remap_area_pte (S n) (pgd_index start) start (start + size)
              (__pfn_to_phys pfn) type s) as [r s1|s1|]; try reflexivity.
  destruct (r =? 0) eqn:R; cbn [negb];
    repeat (first [rewrite Z.eqb_refl | rewrite R]; cbn [negb]);
    reflexivity.
Qed.

Lemma pages_in_unit_fill fuel start pfn size type s m :
  (1 <= m <= fuel)%nat -> 0 <= start ->
  size = Z.of_nat m * PAGE_SIZE ->
  start + size + PGDIR_SIZE < Word.modulus ->
  start mod PGDIR_SIZE + size <= PGDIR_SIZE ->
  (fst (pgd_read s (pgd_index start)) <> 0
   /\ forall k, 0 <= k < Z.of_nat m ->
      leaf_entry s (start + k * PAGE_SIZE) = 0)
  \/ (fst (pgd_read s (pgd_index start)) = 0
      /\ exists t rest,
           free_pages s = t :: rest
           /\ Word.in_range t /\ t mod PAGE_SIZE = 0) ->
  exists s',
    remap_area_pages fuel start pfn size type s = Done 0 s'
    /\ (forall k, 0 <= k < Z.of_nat m ->
        leaf_entry s' (start + k * PAGE_SIZE)
        = Z.lor (__pfn_to_phys (pfn + k)) (prot_pte type))
    /\ init_kvm_seq s' = init_kvm_seq s
    /\ vmlist s' = vmlist s.
Proof.
  intros Hm Hs Hsize Hr Hu Hslots.
  rewrite remap_area_pages_is_pte by (word_consts; lia).
  unfold remap_area_pte.
  assert (Hidx : forall k, 0 <= k < Z.of_nat m ->
            pgd_index (start + k * PAGE_SIZE) = pgd_index start
            /\ __pte_index (start + k * PAGE_SIZE) = __pte_index start + k).
  { intros k Hk. apply (unit_indices start k (Z.of_nat m)); lia. }
  assert (Hval : forall k,
            pfn_pte (Z.shiftr (Word.wrap (__pfn_to_phys pfn + k * PAGE_SIZE))
                       PAGE_SHIFT) (prot_pte type)
            = Z.lor (__pfn_to_phys (pfn + k)) (prot_pte type)).
  { intros k. unfold pfn_pte.
    rewrite pfn_to_phys_step, pfn_to_phys_of_frame. reflexivity. }
  assert (Hphys : Word.in_range (__pfn_to_phys pfn))
    by (rewrite pfn_to_phys_mul; apply wrap_range).
  destruct Hslots as [[Hpmd Hempty] | [Hpmd (t & rest & Hfree & Ht & Hta)]].
  - unfold pte_alloc_kernel, pmd_none.
    apply Z.eqb_neq in Hpmd. rewrite Hpmd.
    set (tb := pmd_page_vaddr (fst (pgd_read s (pgd_index start)))).
    destruct (remap_pte_loop_fills m fuel (tb, __pte_index start) start
                (__pfn_to_phys pfn) (prot_pte type) s)
      as (s' & Hrun & Hfill & _); try (word_consts; lia); try assumption.
    { intros k Hk. cbn [fst snd].
      specialize (Hempty k Hk). unfold leaf_entry in Hempty.
      destruct (Hidx k Hk) as [-> ->] in Hempty. exact Hempty. }
    rewrite Hsize, Hrun. exists s'. split; [reflexivity|].
    destruct (remap_pte_loop_state _ _ _ _ _ _ _ _ _ Hrun) as (f & Hs').
    split; [|subst s'; split; reflexivity].
    intros k Hk. unfold leaf_entry.
    destruct (Hidx k Hk) as [-> ->].
    replace (pgd_read s' (pgd_index start)) with (pgd_read s (pgd_index start))
      by (subst s'; reflexivity).
    fold tb. specialize (Hfill k Hk). cbn [fst snd] in Hfill.
    rewrite Hfill. apply Hval.
  - unfold pte_alloc_kernel, pmd_none.
    apply Z.eqb_eq in Hpmd. rewrite Hpmd, Hfree.
    set (s3 := pmd_populate_kernel (pgd_index start) t
                 (set_pte_tables (insert t ∅) (set_free_pages rest s))).
    assert (Hrd : pgd_read s3 (pgd_index start)
                  = (Z.lor t _PAGE_KERNEL_TABLE,
                     Z.lor (Word.add t (256 * 4)) _PAGE_KERNEL_TABLE)).
    { subst s3. unfold pgd_read, pmd_populate_kernel, set_init_pgd.
      cbn [init_pgd]. rewrite lookup_insert_eq. reflexivity. }
    rewrite Hrd. cbn [fst]. rewrite pmd_page_vaddr_table by assumption.
    destruct (remap_pte_loop_fills m fuel (t, __pte_index start) start
                (__pfn_to_phys pfn) (prot_pte type) s3)
      as (s' & Hrun & Hfill & _); try (word_consts; lia); try assumption.
    { intros k Hk. subst s3. unfold pte_read. simpl.
      rewrite lookup_insert_eq. reflexivity. }
    rewrite Hsize, Hrun. exists s'. split; [reflexivity|].
    destruct (remap_pte_loop_state _ _ _ _ _ _ _ _ _ Hrun) as (f & Hs').
    split; [|subst s'; split; reflexivity].
    intros k Hk. unfold leaf_entry.
    destruct (Hidx k Hk) as [-> ->].
    replace (pgd_read s' (pgd_index start)) with (pgd_read s3 (pgd_index start))
      by (subst s'; reflexivity).
    rewrite Hrd. cbn [fst]. rewrite pmd_page_vaddr_table by assumption.
    specialize (Hfill k Hk). cbn [fst snd] in Hfill.
    rewrite Hfill. apply Hval.
Qed.

(** X1: a range of [m] pages that lies inside one 2MB unit, whose leaf
    slots are empty (or whose unit has no leaf table yet while the allocator
    has a page), is populated by [remap_area_pages]: it returns 0 and the
    kernel's walk finds, for page [k], the entry of frame [pfn + k] with the
    type's page attributes. *)
Theorem remap_area_pages_one_unit fuel start pfn size type s m :
  (1 <= m <= fuel)%nat -> 0 <= start ->
  size = Z.of_nat m * PAGE_SIZE ->
  start + size + PGDIR_SIZE < Word.modulus ->
  start mod PGDIR_SIZE + size <= PGDIR_SIZE ->
  (fst (pgd_read s (pgd_index start)) <> 0
   /\ forall k, 0 <= k < Z.of_nat m ->
      leaf_entry s (start + k * PAGE_SIZE) = 0)
  \/ (fst (pgd_read s (pgd_index start)) = 0
      /\ exists t rest,
           free_pages s = t :: rest
           /\ Word.in_range t /\ t mod PAGE_SIZE = 0) ->
  exists s',
    remap_area_pages fuel start pfn size type s = Done 0 s'
    /\ (forall k, 0 <= k < Z.of_nat m ->
        leaf_entry s' (start + k * PAGE_SIZE)
        = Z.lor (__pfn_to_phys (pfn + k)) (prot_pte type))
    /\ init_kvm_seq s' = init_kvm_seq s
    /\ vmlist s' = vmlist s.
Proof.
  intros Hm Hs Hsize Hr Hu Hslots.
  apply (pages_in_unit_fill fuel start pfn size type s m); assumption.
Qed.

Lemma remap_area_pages_one_unit_witness :
  exists s',
    remap_area_pages 8 0xE0001000 0x10000 0x3000 Sample.MT_DEVICE Sample.boot
      = Done 0 s'
    /\ leaf_entry s' 0xE0001000 = 0x10000243
    /\ leaf_entry s' 0xE0003000 = 0x10002243.
Proof.
  destruct (remap_area_pages_one_unit 8 0xE0001000 0x10000 0x3000
              Sample.MT_DEVICE Sample.boot 3) as (s' & Hrun & Hfill & _).
  - lia.
  - lia.
  - reflexivity.
  - vm_compute. reflexivity.
  - vm_compute. discriminate.
  - right. split; [reflexivity|].
    exists 0x8000, [0x9000]. split; [reflexivity|]. split.
    + vm_compute. split; [discriminate | reflexivity].
    + reflexivity.
  - exists s'. split; [exact Hrun|]. split.
    + apply (Hfill 0). lia.
    + apply (Hfill 2). lia.
Defined.

Lemma page_aligned_in_unit virt :
  0 <= virt -> virt mod PAGE_SIZE = 0 ->
  virt mod PGDIR_SIZE + PAGE_SIZE <= PGDIR_SIZE.
Proof.
  intros Hv Ha. rewrite PAGE_SIZE_val, PGDIR_SIZE_val in *.
  assert (M : (virt mod 2097152) mod 4096 = 0).
  { rewrite Z.mod_mod_divide by (exists 512; reflexivity). exact Ha. }
  pose proof (Z.mod_pos_bound virt 2097152 ltac:(lia)) as B.
  pose proof (Z.div_mod (virt mod 2097152) 4096 ltac:(lia)) as D.
  lia.
Qed.

Lemma pfn_to_phys_of_phys phys :
  Word.in_range phys ->
  __pfn_to_phys (__phys_to_pfn phys) = phys - phys mod PAGE_SIZE.
Proof.
  intros Hp. rewrite pfn_to_phys_mul. unfold __phys_to_pfn.
  rewrite Z.shiftr_div_pow2 by (unfold PAGE_SHIFT; lia).
  change (2 ^ PAGE_SHIFT) with PAGE_SIZE.
  pose proof (Z.div_mod phys PAGE_SIZE) as D.
  pose proof (Z.mod_pos_bound phys PAGE_SIZE) as B.
  rewrite PAGE_SIZE_val in *.
  replace (phys / 4096 * 4096) with (phys - phys mod 4096) by lia.
  apply wrap_small. word_consts. lia.
Qed.

(** X2: [ioremap_page] on a page-aligned virtual address whose leaf slot
    is empty (or whose unit has no leaf table yet while the allocator has a
    page) returns 0, and the walk then finds at that address the entry of
    the page frame that contains [phys], with the type's page attributes. *)
Theorem ioremap_page_maps fuel virt phys mtype s :
  (1 <= fuel)%nat -> 0 <= virt -> virt mod PAGE_SIZE = 0 ->
  virt + PAGE_SIZE + PGDIR_SIZE < Word.modulus ->
  Word.in_range phys ->
  (fst (pgd_read s (pgd_index virt)) <> 0 /\ leaf_entry s virt = 0)
  \/ (fst (pgd_read s (pgd_index virt)) = 0
      /\ exists t rest,
           free_pages s = t :: rest
           /\ Word.in_range t /\ t mod PAGE_SIZE = 0) ->
  exists s',
    ioremap_page fuel virt phys mtype s = Done 0 s'
    /\ leaf_entry s' virt = Z.lor (phys - phys mod PAGE_SIZE) (prot_pte mtype).
Proof.
  intros Hf Hv Ha Hr Hp Hslot. unfold ioremap_page.
  destruct (pages_in_unit_fill fuel virt (__phys_to_pfn phys) PAGE_SIZE
              mtype s 1) as (s' & Hrun & Hfill & _).
  - lia.
  - exact Hv.
  - lia.
  - lia.
  - apply page_aligned_in_unit; assumption.
  - destruct Hslot as [[H1 H2]|H]; [left|right; exact H].
    split; [exact H1|]. intros k Hk. assert (k = 0) as -> by lia.
    rewrite Z.mul_0_l, Z.add_0_r. exact H2.
  - exists s'. split; [exact Hrun|].
    specialize (Hfill 0 ltac:(lia)).
    rewrite Z.mul_0_l, !Z.add_0_r in Hfill.
    rewrite Hfill, pfn_to_phys_of_phys by exact Hp. reflexivity.
Qed.

Lemma ioremap_page_maps_witness :
  exists s',
    ioremap_page 8 0xE0000000 0x48002abc Sample.MT_DEVICE Sample.occupied
      = Done 0 s'
    /\ leaf_entry s' 0xE0000000 = 0x48002243.
Proof.
  destruct (ioremap_page_maps 8 0xE0000000 0x48002abc Sample.MT_DEVICE
              Sample.occupied) as (s' & Hrun & Hleaf).
  - lia.
  - lia.
  - reflexivity.
  - vm_compute. reflexivity.
  - vm_compute. split; [discriminate | reflexivity].
  - left. split; [vm_compute; discriminate | vm_compute; reflexivity].
  - exists s'. split; [exact Hrun | exact Hleaf].
Defined.

(** ** Running out of table memory *)

Lemma pages_enomem fuel start pfn size type s :
  (1 <= fuel)%nat -> 0 <= start -> 0 < size ->
  start + size < Word.modulus ->
  fst (pgd_read s (pgd_index start)) = 0 ->
  free_pages s = [] ->
  remap_area_pages fuel start pfn size type s = Done (- ENOMEM) s.
Proof.
  intros Hf Hs Hsz Hr Hpmd Hfree. unfold remap_area_pages.
  assert (Hstop : Word.add start size = start + size).
  { unfold Word.add. apply wrap_small. word_consts. lia. }
  rewrite Hstop.
  assert (T : (start + size <=? start) = false) by (apply Z.leb_gt; lia).
  rewrite T.
  destruct fuel as [|n]; [lia|].
  cbn [remap_area_pages_loop].
  unfold remap_area_pmd, pmd_alloc.
  cbn [remap_area_pmd_loop]. unfold remap_area_pte, pte_alloc_kernel, pmd_none.
  rewrite Hpmd, Hfree. reflexivity.
Qed.

(** X3: when the first unit of the range has no leaf table and the
    allocator has no page left, [remap_area_pages] returns -ENOMEM and has
    changed nothing. *)
Theorem remap_area_pages_enomem fuel start pfn size type s :
  (1 <= fuel)%nat -> 0 <= start -> 0 < size ->
  start + size < Word.modulus ->
  fst (pgd_read s (pgd_index start)) = 0 ->
  free_pages s = [] ->
  remap_area_pages fuel start pfn size type s = Done (- ENOMEM) s.
Proof. apply pages_enomem. Qed.

Lemma remap_area_pages_enomem_witness :
  remap_area_pages 8 0xE0000000 0x10000 0x2000 Sample.MT_DEVICE Sample.starved
  = Done (- ENOMEM) Sample.starved.
Proof.
  apply remap_area_pages_enomem.
  - lia.
  - lia.
  - lia.
  - vm_compute. reflexivity.
  - reflexivity.
  - reflexivity.
Defined.

Lemma filter_fresh_area (addr : Z) (l : list vm_struct) :
  Forall (fun a => vm_addr a <> addr) l ->
  filter (fun a => vm_addr a <> addr) l = l.
Proof.
  induction 1 as [|a l Ha Hl IH]; [reflexivity|].
  rewrite filter_cons_True by exact Ha. rewrite IH. reflexivity.
Qed.

Lemma vunmap_fresh_area addr size flags s :
  Forall (fun a => vm_addr a <> addr) (vmlist s) ->
  vunmap addr
    (set_vmlist ({| vm_addr := addr; vm_size := size; vm_flags := flags |}
                 :: vmlist s) s)
  = emit (vm_area_released addr) s.
Proof.
  intros Hfresh. unfold vunmap, emit, set_vmlist. cbn [vmlist trace init_pgd
    init_kvm_seq pte_tables free_pages active_mm].
  rewrite filter_cons_False by (cbn [vm_addr]; tauto).
  rewrite filter_fresh_area by exact Hfresh. reflexivity.
Qed.

(** X4: a single-range request that is to be mapped with pages, made when
    the first unit of the area has no leaf table and the allocator has no
    page left, returns NULL; the area reserved for it is released and the
    kernel state is the one before the call but for the record of that
    release. *)
Theorem ioremap_pfn_enomem_released cfg fuel pfn offset size mtype type s addr :
  let asize := PAGE_ALIGN (Word.add offset size) in
  (1 <= fuel)%nat ->
  high_mapping_misaligned pfn = false ->
  get_mem_type cfg mtype = Some type ->
  vm_policy cfg (vmlist s) asize = Some addr ->
  Forall (fun a => vm_addr a <> addr) (vmlist s) ->
  select_mapping cfg pfn asize addr = Pages ->
  0 <= addr -> 0 < asize -> addr + asize < Word.modulus ->
  fst (pgd_read s (pgd_index addr)) = 0 ->
  free_pages s = [] ->
  __arm_ioremap_pfn_caller cfg fuel pfn offset size mtype s
  = Done NULL (emit (vm_area_released addr) s).
Proof.
  intros asize Hf Hh Ht Hpol Hfresh Hsel Ha Hsz Hr Hpmd Hfree.
  unfold __arm_ioremap_pfn_caller.
  rewrite Hh, Ht. fold asize.
  unfold get_vm_area_caller. rewrite Hpol.
  unfold ioremap_dispatch. rewrite Hsel.
  rewrite pages_enomem by assumption.
  change (negb (- ENOMEM =? 0)) with true. cbv iota.
  rewrite vunmap_fresh_area by exact Hfresh. reflexivity.
Qed.

Lemma ioremap_pfn_enomem_released_witness :
  __arm_ioremap_pfn_caller Sample.up 8 0x10000 0 0x2000 0 Sample.starved
  = Done NULL (emit (vm_area_released 0xE0000000) Sample.starved).
Proof.
  apply (ioremap_pfn_enomem_released Sample.up 8 0x10000 0 0x2000 0
           Sample.MT_DEVICE Sample.starved 0xE0000000).
  - lia.
  - reflexivity.
  - reflexivity.
  - reflexivity.
  - constructor.
  - reflexivity.
  - lia.
  - vm_compute. reflexivity.
  - vm_compute. reflexivity.
  - reflexivity.
  - reflexivity.
Defined.

(** ** The pointer a page-mapped request gets back *)

Lemma land_low_bits x :
  Z.land x (Word.not PAGE_MASK) = x mod PAGE_SIZE.
Proof. rewrite not_PAGE_MASK, Z.land_ones by lia. reflexivity. Qed.

(** X5: a single-range request served with pages inside one 2MB unit
    succeeds: [__arm_ioremap_caller] returns the area's base plus the
    offset of [phys_addr] within its page, so that masking the result with
    [PAGE_MASK] gives back the base; the area is on record with one guard
    page; page [k] of the area maps the frame [k] pages after the one that
    contains [phys_addr]; and [__iounmap] of the pointer returned releases
    that area without any section teardown. *)
Theorem ioremap_caller_pages cfg fuel phys_addr size mtype type s addr m :
  let offset := phys_addr mod PAGE_SIZE in
  let asize := PAGE_ALIGN (Word.add offset size) in
  Word.in_range phys_addr -> 0 < size -> phys_addr + size - 1 < Word.modulus ->
  get_mem_type cfg mtype = Some type ->
  asize = Z.of_nat m * PAGE_SIZE -> (1 <= m <= fuel)%nat ->
  vm_policy cfg (vmlist s) asize = Some addr ->
  0 <= addr -> addr mod PAGE_SIZE = 0 ->
  addr + asize + PGDIR_SIZE < Word.modulus ->
  addr mod PGDIR_SIZE + asize <= PGDIR_SIZE ->
  select_mapping cfg (__phys_to_pfn phys_addr) asize addr = Pages ->
  (fst (pgd_read s (pgd_index addr)) <> 0
   /\ forall k, 0 <= k < Z.of_nat m ->
      leaf_entry s (addr + k * PAGE_SIZE) = 0)
  \/ (fst (pgd_read s (pgd_index addr)) = 0
      /\ exists t rest,
           free_pages s = t :: rest
           /\ Word.in_range t /\ t mod PAGE_SIZE = 0) ->
  exists s',
    __arm_ioremap_caller cfg fuel phys_addr size mtype s
      = Done (addr + offset) s'
    /\ Z.land PAGE_MASK (addr + offset) = addr
    /\ (forall k, 0 <= k < Z.of_nat m ->
        leaf_entry s' (addr + k * PAGE_SIZE)
        = Z.lor (__pfn_to_phys (__phys_to_pfn phys_addr + k)) (prot_pte type))
    /\ vmlist s'
       = {| vm_addr := addr; vm_size := Word.add asize PAGE_SIZE;
            vm_flags := VM_IOREMAP |} :: vmlist s
    /\ __iounmap cfg fuel (addr + offset) s' = Done tt (vunmap addr s').
Proof.
  intros offset asize Hp Hsz Hnw Ht Hm Hmf Hpol Ha Hal Hr Hu Hsel Hslots.
  pose proof (Z.mod_pos_bound phys_addr PAGE_SIZE) as Boff.
  fold offset in Boff. rewrite PAGE_SIZE_val in Boff.
  specialize (Boff ltac:(lia)).
  unfold __arm_ioremap_caller.
  rewrite land_low_bits. fold offset.
  assert (Hoff : offset = phys_addr mod PAGE_SIZE) by reflexivity.
  clearbody offset.
  assert (G : (size =? 0)
              || (Word.sub (Word.add phys_addr size) 1 <? phys_addr) = false).
  { apply orb_false_iff. split; [apply Z.eqb_neq; lia|].
    apply Z.ltb_ge. unfold Word.sub, Word.add.
    replace (Word.wrap (phys_addr + size) - 1)
      with (Word.wrap (phys_addr + size) + -1) by lia.
    rewrite wrap_add_l.
    rewrite wrap_small by (word_consts; lia). lia. }
  rewrite G.
  unfold __arm_ioremap_pfn_caller.
  assert (Hh : high_mapping_misaligned (__phys_to_pfn phys_addr) = false).
  { unfold high_mapping_misaligned.
    pose proof (phys_to_pfn_below_threshold phys_addr Hp) as B.
    apply Z.leb_gt in B. rewrite B. reflexivity. }
  rewrite Hh, Ht. fold asize.
  unfold get_vm_area_caller. rewrite Hpol.
  unfold ioremap_dispatch. rewrite Hsel.
  set (s1 := set_vmlist _ s).
  destruct (pages_in_unit_fill fuel addr (__phys_to_pfn phys_addr) asize
              type s1 m) as (s2 & Hrun & Hfill & _ & Hvm);
    try assumption.
  rewrite Hrun. cbn [Z.eqb negb].
  assert (Hm1 : 4096 <= asize) by (rewrite Hm, PAGE_SIZE_val; lia).
  assert (Hres : Word.add offset addr = addr + offset).
  { unfold Word.add. rewrite wrap_small by (word_consts; lia). lia. }
  rewrite Hres.
  assert (Hmask : Z.land PAGE_MASK (addr + offset) = addr).
  { rewrite land_PAGE_MASK by (word_consts; lia).
    rewrite PAGE_SIZE_val in *.
    replace ((addr + offset) mod 4096) with offset; [lia|].
    apply Z.mod_unique with (q := addr / 4096); [lia|].
    pose proof (Z.div_mod addr 4096 ltac:(lia)). lia. }
  eexists. split; [reflexivity|].
  split; [exact Hmask|]. split; [exact Hfill|]. split.
  - cbn [vmlist emit]. rewrite Hvm. reflexivity.
  - unfold __iounmap, bind. rewrite Hmask.
    destruct (CONFIG_SMP cfg); [reflexivity|].
    cbn [vmlist emit]. rewrite Hvm. subst s1.
    cbn [vmlist set_vmlist find_ioremap_area vm_flags vm_addr].
    change (Z.land VM_IOREMAP VM_IOREMAP =? 0) with false.
    rewrite Z.eqb_refl. cbn [negb andb vm_flags].
    change (Z.land VM_IOREMAP VM_ARM_SECTION_MAPPING =? 0) with true.
    reflexivity.
Qed.

Lemma ioremap_caller_pages_witness :
  exists s',
    __arm_ioremap_caller Sample.up 8 0x48002abc 0x1000 0 Sample.boot
      = Done 0xE0000abc s'
    /\ leaf_entry s' 0xE0000000 = 0x48002243
    /\ leaf_entry s' 0xE0001000 = 0x48003243.
Proof.
  destruct (ioremap_caller_pages Sample.up 8 0x48002abc 0x1000 0
              Sample.MT_DEVICE Sample.boot 0xE0000000 2)
    as (s' & Hrun & _ & Hfill & _ & _).
  - vm_compute. split; [discriminate | reflexivity].
  - lia.
  - vm_compute. reflexivity.
  - reflexivity.
  - reflexivity.
  - lia.
  - reflexivity.
  - lia.
  - reflexivity.
  - vm_compute. reflexivity.
  - vm_compute. discriminate.
  - reflexivity.
  - right. split; [reflexivity|].
    exists 0x8000, [0x9000]. split; [reflexivity|]. split.
    + vm_compute. split; [discriminate | reflexivity].
    + reflexivity.
  - exists s'. split; [exact Hrun|]. split.
    + apply (Hfill 0). lia.
    + apply (Hfill 1). lia.
Defined.

(** ** Supersection mappings *)

Lemma pmd_write_pair_read pmd v s j :
  pgd_read (pmd_write1 pmd v (pmd_write0 pmd v s)) j
  = if decide (j = pmd) then (v, v) else pgd_read s j.
Proof.
  unfold pmd_write0, pmd_write1, pgd_read, set_init_pgd. cbn [init_pgd].
  destruct (decide (j = pmd)) as [->|Hne].
  - rewrite !lookup_insert_eq. reflexivity.
  - rewrite !lookup_insert_ne by congruence. reflexivity.
Qed.

Lemma supersection_fill_read i :
  forall pgd addr v s,
  fst (fst (supersection_fill i pgd addr v s)) = pgd + Z.of_nat i
  /\ forall j,
       pgd_read (snd (supersection_fill i pgd addr v s)) j
       = if decide (pgd <= j < pgd + Z.of_nat i) then (v, v)
         else pgd_read s j.
Proof.
  induction i as [|i IH]; intros pgd addr v s.
  - cbn [supersection_fill fst snd]. split; [lia|].
    intros j. destruct (decide _); [lia | reflexivity].
  - cbn [supersection_fill]. unfold pmd_offset.
    destruct (IH (pgd + 1) (Word.add addr PGDIR_SIZE) v
                (emit (flush_pmd_entry pgd)
                   (pmd_write1 pgd v (pmd_write0 pgd v s)))) as [I1 I2].
    split; [lia|].
    intros j. rewrite I2.
    change (pgd_read (emit (flush_pmd_entry pgd)
                        (pmd_write1 pgd v (pmd_write0 pgd v s))) j)
      with (pgd_read (pmd_write1 pgd v (pmd_write0 pgd v s)) j).
    rewrite pmd_write_pair_read.
    destruct (decide (pgd + 1 <= j < pgd + 1 + Z.of_nat i));
      destruct (decide (pgd <= j < pgd + Z.of_nat (S i)));
      destruct (decide (j = pgd)); try reflexivity; lia.
Qed.

Lemma supersection_fill_addr i :
  forall pgd addr v s,
  Word.in_range addr ->
  snd (fst (supersection_fill i pgd addr v s))
  = Word.wrap (addr + Z.of_nat i * PGDIR_SIZE).
Proof.
  induction i as [|i IH]; intros pgd addr v s Ha.
  - cbn [supersection_fill fst snd].
    rewrite Z.mul_0_l, Z.add_0_r, wrap_small by exact Ha. reflexivity.
  - cbn [supersection_fill]. rewrite IH by apply wrap_range.
    unfold Word.add. rewrite wrap_add_l. f_equal. lia.
Qed.

Lemma supersection_units_outside m :
  forall pgd addr pfn type s j,
  ~ (pgd <= j < pgd + 8 * Z.of_nat m) ->
  pgd_read (supersection_units m pgd addr pfn type s) j = pgd_read s j.
Proof.
  induction m as [|m IH]; intros pgd addr pfn type s j Hj; [reflexivity|].
  cbn [supersection_units].
  destruct (supersection_fill_read 8 pgd addr (super_pmd_val pfn type) s)
    as [F1 F2].
  destruct (supersection_fill 8 pgd addr (super_pmd_val pfn type) s)
    as [[pgd1 addr1] s1].
  cbn [fst snd] in F1, F2. subst pgd1.
  rewrite IH by lia. rewrite F2.
  destruct (decide _); [lia | reflexivity].
Qed.

Lemma supersection_units_read m :
  forall pgd addr pfn type s k,
  Word.in_range pfn ->
  0 <= k < 8 * Z.of_nat m ->
  pgd_read (supersection_units m pgd addr pfn type s) (pgd + k)
  = (super_pmd_val
       (Word.wrap (pfn + k / 8 * Z.shiftr SUPERSECTION_SIZE PAGE_SHIFT)) type,
     super_pmd_val
       (Word.wrap (pfn + k / 8 * Z.shiftr SUPERSECTION_SIZE PAGE_SHIFT)) type).
Proof.
  induction m as [|m IH]; intros pgd addr pfn type s k Hp Hk; [lia|].
  cbn [supersection_units].
  destruct (supersection_fill_read 8 pgd addr (super_pmd_val pfn type) s)
    as [F1 F2].
  destruct (supersection_fill 8 pgd addr (super_pmd_val pfn type) s)
    as [[pgd1 addr1] s1].
  cbn [fst snd] in F1, F2. subst pgd1.
  destruct (Z_lt_dec k 8) as [Hlt|Hge].
  - rewrite supersection_units_outside by lia. rewrite F2.
    destruct (decide _); [|lia].
    rewrite Z.div_small by lia.
    rewrite Z.mul_0_l, Z.add_0_r, wrap_small by exact Hp. reflexivity.
  - replace (pgd + k) with (pgd + Z.of_nat 8 + (k - 8)) by lia.
    rewrite IH by (try apply wrap_range; lia).
    unfold Word.add. rewrite wrap_add_l.
    replace (k / 8) with ((k - 8) / 8 + 1).
    2:{ replace k with ((k - 8) + 1 * 8) at 2 by lia.
        rewrite Z.div_add by lia. reflexivity. }
    do 3 f_equal; lia.
Qed.

Lemma remap_supersections_loop_units m :
  forall n pgd addr pfn type s,
  (1 <= m <= n)%nat -> 0 <= addr ->
  addr + Z.of_nat m * SUPERSECTION_SIZE < Word.modulus ->
  remap_area_supersections_loop n pgd addr
    (addr + Z.of_nat m * SUPERSECTION_SIZE) pfn type s
  = Done 0 (supersection_units m pgd addr pfn type s).
Proof.
  induction m as [|m IH]; intros n pgd addr pfn type s Hm Ha Hr; [lia|].
  destruct n as [|n]; [lia|].
  cbn [remap_area_supersections_loop supersection_units].
  fold (super_pmd_val pfn type).
  assert (SS : SUPERSECTION_SIZE = 16777216) by reflexivity.
  rewrite SS in *.
  pose proof (supersection_fill_addr 8 pgd addr (super_pmd_val pfn type) s
                ltac:(word_consts; lia)) as FA.
  destruct (supersection_fill 8 pgd addr (super_pmd_val pfn type) s)
    as [[pgd1 addr1] s1].
  cbn [fst snd] in FA.
  rewrite wrap_small in FA by (word_consts; lia).
  rewrite PGDIR_SIZE_val in FA.
  assert (A1 : addr1 = addr + 16777216) by lia.
  rewrite A1.
  destruct m as [|m].
  - replace (addr + Z.of_nat 1 * 16777216) with (addr + 16777216) by lia.
    rewrite Z.ltb_irrefl. reflexivity.
  - assert (T : (addr + 16777216 <? addr + Z.of_nat (S (S m)) * 16777216)
                = true) by (apply Z.ltb_lt; lia).
    rewrite T.
    replace (addr + Z.of_nat (S (S m)) * 16777216)
      with (addr + 16777216 + Z.of_nat (S m) * 16777216) by lia.
    apply IH; lia.
Qed.

(** X6: over a range of [m] 16MB units, [remap_area_supersections]
    returns 0 and leaves in each of the eight first-level slots of unit [u]
    the same value twice: the supersection entry of frame
    [pfn + 4096 u] (taken modulo 2^32, as the frame number is a machine
    word). *)
Theorem remap_area_supersections_units cfg fuel virt pfn size type s m :
  0 <= virt -> Word.in_range pfn ->
  (1 <= m)%nat -> (8 * m <= fuel)%nat ->
  size = Z.of_nat m * SUPERSECTION_SIZE ->
  virt + size + PGDIR_SIZE < Word.modulus ->
  exists s',
    remap_area_supersections cfg fuel virt pfn size type s = Done 0 s'
    /\ forall k, 0 <= k < 8 * Z.of_nat m ->
       let v := super_pmd_val
                  (Word.wrap (pfn + k / 8
                                    * Z.shiftr SUPERSECTION_SIZE PAGE_SHIFT))
                  type in
       pgd_read s' (pgd_index virt + k) = (v, v).
Proof.
  intros Hv Hp Hm Hf Hsize Hr.
  assert (SS : SUPERSECTION_SIZE = 16777216) by reflexivity.
  destruct (unmap_area_sections_runs cfg fuel virt size s)
    as (u & _ & Hrun & _); try (rewrite ?SS in *; word_consts; lia).
  unfold remap_area_supersections, bind. rewrite Hrun.
  assert (Hstop : Word.add virt size
                  = virt + Z.of_nat m * SUPERSECTION_SIZE).
  { unfold Word.add. rewrite wrap_small by (word_consts; lia). lia. }
  rewrite Hstop, remap_supersections_loop_units
    by (rewrite ?SS in *; word_consts; lia).
  eexists. split; [reflexivity|].
  intros k Hk. apply supersection_units_read; assumption.
Qed.

Lemma remap_area_supersections_units_witness :
  exists s',
    remap_area_supersections Sample.up 8 0xE0000000 0x100000 0x1000000
      Sample.MT_DEVICE Sample.boot = Done 0 s'
    /\ pgd_read s' 1792 = (0x140412, 0x140412)
    /\ pgd_read s' 1799 = (0x140412, 0x140412).
Proof.
  destruct (remap_area_supersections_units Sample.up 8 0xE0000000 0x100000
              0x1000000 Sample.MT_DEVICE Sample.boot 1) as (s' & Hrun & Hk).
  - lia.
  - vm_compute. split; [discriminate | reflexivity].
  - lia.
  - lia.
  - reflexivity.
  - vm_compute. reflexivity.
  - exists s'. split; [exact Hrun|]. split.
    + apply (Hk 0). lia.
    + apply (Hk 7). lia.
Defined.

Lemma super_pmd_val_parts pfn type :
  0 <= pfn < 2 ^ 24 -> pfn mod 4096 = 0 ->
  super_pmd_val pfn type
  = Z.lor (Z.lor (Z.lor (pfn / 4096 mod 256 * 2 ^ 24) (prot_sect type))
                 PMD_SECT_SUPER)
          (pfn / 4096 / 256 * 2 ^ 20).
Proof.
  intros Hp Ha. unfold super_pmd_val.
  pose proof (Z.div_mod pfn 4096 ltac:(lia)) as D.
  pose proof (Z.div_mod (pfn / 4096) 256 ltac:(lia)) as D2.
  pose proof (Z.mod_pos_bound (pfn / 4096) 256 ltac:(lia)) as B2.
  change (2 ^ 24) with 16777216 in *. change (2 ^ 20) with 1048576.
  assert (Hq : 0 <= pfn / 4096 < 4096) by lia.
  assert (He : 0 <= pfn / 4096 / 256 < 16) by lia.
  f_equal; [f_equal; f_equal|].
  - rewrite pfn_to_phys_mul, PAGE_SIZE_val. unfold Word.wrap.
    rewrite modulus_val. symmetry.
    apply Z.mod_unique with (q := pfn / 4096 / 256); lia.
  - change (32 - PAGE_SHIFT) with 20. change 0xf with (Z.ones 4).
    rewrite Z.shiftr_div_pow2, Z.land_ones by lia.
    change (2 ^ 20) with 1048576. change (2 ^ 4) with 16.
    assert (E : pfn / 1048576 = pfn / 4096 / 256).
    { symmetry. apply Z.div_unique with (r := 4096 * (pfn / 4096 mod 256));
        lia. }
    rewrite E, Z.mod_small by lia.
    unfold Word.shl. rewrite Z.shiftl_mul_pow2 by lia.
    change (2 ^ 20) with 1048576.
    apply wrap_small. word_consts. lia.
Qed.

(** X7: the value written for a supersection carries the whole 36-bit
    physical base.  For a frame number below 2^24 whose address is 16MB
    aligned, and section attributes confined to the low 20 bits, bits 31-24
    of the entry are bits 31-24 of the physical address and bits 23-20 are
    its bits 35-32, so the address is recovered from the entry; the low 20
    bits are the attributes with the supersection bit set. *)
Theorem super_pmd_val_address pfn type :
  0 <= pfn < 2 ^ 24 ->
  (pfn * PAGE_SIZE) mod SUPERSECTION_SIZE = 0 ->
  0 <= prot_sect type < 2 ^ 20 ->
  Z.shiftl (Z.shiftr (super_pmd_val pfn type) 24) 24
  + Z.shiftl (Z.land (Z.shiftr (super_pmd_val pfn type) 20) 0xf) 32
  = pfn * PAGE_SIZE
  /\ Z.land (super_pmd_val pfn type) (Z.ones 20)
     = Z.lor (prot_sect type) PMD_SECT_SUPER.
Proof.
  intros Hp Hal Hprot.
  assert (Ha : pfn mod 4096 = 0).
  { rewrite PAGE_SIZE_val in Hal.
    change SUPERSECTION_SIZE with (4096 * 4096) in Hal.
    rewrite Z.mul_mod_distr_r in Hal by lia. lia. }
  rewrite super_pmd_val_parts by assumption.
  pose proof (Z.div_mod pfn 4096 ltac:(lia)) as D.
  pose proof (Z.div_mod (pfn / 4096) 256 ltac:(lia)) as D2.
  pose proof (Z.mod_pos_bound (pfn / 4096) 256 ltac:(lia)) as B2.
  set (a := pfn / 4096 mod 256) in *.
  set (e := pfn / 4096 / 256) in *.
  change (2 ^ 24) with 16777216 in *. change (2 ^ 20) with 1048576 in *.
  assert (He : 0 <= e < 16) by lia.
  change PMD_SECT_SUPER with 262144.
  assert (S24 : forall x, 0 <= x < 16777216 -> Z.shiftr x 24 = 0).
  { intros x Hx. rewrite Z.shiftr_div_pow2 by lia. apply Z.div_small. exact Hx. }
  assert (S20 : forall x, 0 <= x < 1048576 -> Z.shiftr x 20 = 0).
  { intros x Hx. rewrite Z.shiftr_div_pow2 by lia. apply Z.div_small. exact Hx. }
  split.
  - rewrite !Z.shiftr_lor.
    rewrite (S24 (prot_sect type)), (S24 262144), (S24 (e * 1048576)) by lia.
    rewrite (S20 (prot_sect type)), (S20 262144) by lia.
    rewrite !Z.lor_0_r.
    rewrite (Z.shiftr_div_pow2 (a * 16777216) 24) by lia.
    change (2 ^ 24) with 16777216. rewrite Z.div_mul by lia.
    rewrite (Z.shiftr_div_pow2 (a * 16777216) 20),
            (Z.shiftr_div_pow2 (e * 1048576) 20) by lia.
    change (2 ^ 20) with 1048576. rewrite Z.div_mul by lia.
    replace (a * 16777216) with (a * 16 * 1048576) by lia.
    rewrite Z.div_mul by lia.
    change 0xf with (Z.ones 4).
    rewrite Z.land_lor_distr_l, !Z.land_ones by lia.
    change (2 ^ 4) with 16.
    rewrite Z.mod_mul, Z.lor_0_l, Z.mod_small by lia.
    rewrite !Z.shiftl_mul_pow2 by lia. rewrite PAGE_SIZE_val.
    change (2 ^ 24) with 16777216. change (2 ^ 32) with 4294967296. lia.
  - rewrite !Z.land_lor_distr_l, !Z.land_ones by lia.
    change (2 ^ 20) with 1048576.
    replace (a * 16 * 1048576) with (a * 16777216) by lia.
    replace (a * 16777216) with (a * 16 * 1048576) by lia.
    rewrite !Z.mod_mul by lia.
    rewrite Z.lor_0_l, Z.lor_0_r.
    rewrite !Z.mod_small by lia.
    reflexivity.
Qed.

Lemma super_pmd_val_address_witness :
  Z.shiftl (Z.shiftr (super_pmd_val 0x345000 Sample.MT_DEVICE) 24) 24
  + Z.shiftl (Z.land (Z.shiftr (super_pmd_val 0x345000 Sample.MT_DEVICE) 20)
                0xf) 32
  = 0x345000 * PAGE_SIZE
  /\ Z.land (super_pmd_val 0x345000 Sample.MT_DEVICE) (Z.ones 20)
     = Z.lor (prot_sect Sample.MT_DEVICE) PMD_SECT_SUPER.
Proof.
  apply super_pmd_val_address.
  - lia.
  - reflexivity.
  - vm_compute. split; [discriminate | reflexivity].
Defined.

(** ** Mapping with sections and unmapping again *)

Lemma PAGE_ALIGN_aligned x :
  0 <= x -> x + PAGE_SIZE <= Word.modulus -> x mod PAGE_SIZE = 0 ->
  PAGE_ALIGN x = x.
Proof.
  intros Hx Hr Ha. unfold PAGE_ALIGN, Word.add.
  rewrite PAGE_SIZE_val in *.
  rewrite wrap_small by (word_consts; lia).
  rewrite Z.land_comm, land_PAGE_MASK by (word_consts; lia).
  rewrite PAGE_SIZE_val.
  replace ((x + (4096 - 1)) mod 4096) with 4095; [lia|].
  apply Z.mod_unique with (q := x / 4096); [lia|].
  pose proof (Z.div_mod x 4096 ltac:(lia)). lia.
Qed.

Lemma unmap_pmd_vmlist pgd addr s :
  vmlist (unmap_pmd pgd addr s) = vmlist s.
Proof.
  unfold unmap_pmd. destruct (negb _); [|reflexivity].
  destruct (_ =? _); reflexivity.
Qed.

Lemma unmap_units_vmlist m :
  forall pgd s, vmlist (unmap_units m pgd s) = vmlist s.
Proof.
  induction m as [|m IH]; intros pgd s; [reflexivity|].
  cbn [unmap_units]. rewrite IH. apply unmap_pmd_vmlist.
Qed.

Lemma section_units_vmlist m :
  forall pgd pfn type s, vmlist (section_units m pgd pfn type s) = vmlist s.
Proof.
  induction m as [|m IH]; intros pgd pfn type s; [reflexivity|].
  cbn [section_units]. rewrite IH. reflexivity.
Qed.

Lemma sync_active_mm_vmlist cfg s :
  vmlist (sync_active_mm cfg s) = vmlist s.
Proof.
  unfold sync_active_mm. destruct (negb _); reflexivity.
Qed.

Lemma guard_page_masked m :
  0 <= m -> m * PGDIR_SIZE + PAGE_SIZE < Word.modulus ->
  Z.land (m * PGDIR_SIZE + PAGE_SIZE) (Word.not (SZ_1M - 1)) = m * PGDIR_SIZE.
Proof.
  intros Hm Hr. rewrite land_1M_mask by (word_consts; lia).
  rewrite PGDIR_SIZE_val, PAGE_SIZE_val in *.
  change SZ_1M with 1048576.
  replace ((m * 2097152 + 4096) mod 1048576) with 4096; [lia|].
  apply Z.mod_unique with (q := 2 * m); lia.
Qed.

(** X8: on a uniprocessor build, a request below 4GB whose physical base,
    size and virtual base are 2MB aligned is mapped with sections, and
    [__iounmap] of the address returned undoes it: every first-level slot of
    the range is empty again and no virtual area starts at the address any
    more. *)
Theorem ioremap_iounmap_sections cfg fuel pfn size mtype type s addr m :
  CONFIG_SMP cfg = false ->
  get_mem_type cfg mtype = Some type -> prot_sect type <> 0 ->
  0 <= pfn < 0x100000 -> (pfn * PAGE_SIZE) mod PGDIR_SIZE = 0 ->
  size = Z.of_nat m * PGDIR_SIZE -> (1 <= m)%nat -> (m + 1 <= fuel)%nat ->
  vm_policy cfg (vmlist s) size = Some addr ->
  0 <= addr -> addr mod PGDIR_SIZE = 0 ->
  addr + size + PAGE_SIZE + PGDIR_SIZE < Word.modulus ->
  exists s1 s2,
    __arm_ioremap_pfn_caller cfg fuel pfn 0 size mtype s = Done addr s1
    /\ (forall k, 0 <= k < Z.of_nat m ->
        fst (pgd_read s1 (pgd_index addr + k)) <> 0)
    /\ __iounmap cfg fuel addr s1 = Done tt s2
    /\ (forall k, 0 <= k < Z.of_nat m ->
        pgd_read s2 (pgd_index addr + k) = (0, 0))
    /\ (forall a, In a (vmlist s2) -> vm_addr a <> addr).
Proof.
  intros Hup Ht Hprot Hpfn Hpal Hsize Hm Hf Hpol Ha Haal Hr.
  assert (Hsz_al : size mod PAGE_SIZE = 0).
  { rewrite Hsize, PGDIR_SIZE_val, PAGE_SIZE_val.
    replace (Z.of_nat m * 2097152) with (Z.of_nat m * 512 * 4096) by lia.
    apply Z.mod_mul. lia. }
  assert (Hasz : PAGE_ALIGN (Word.add 0 size) = size).
  { unfold Word.add. rewrite Z.add_0_l, wrap_small by (word_consts; lia).
    apply PAGE_ALIGN_aligned; [word_consts; lia | word_consts; lia | exact Hsz_al]. }
  assert (Hsel : select_mapping cfg pfn size addr = Sections).
  { unfold select_mapping. rewrite Hup, supersection_test_iff.
    assert (T : (0x100000 <=? pfn) = false) by (apply Z.leb_gt; lia).
    rewrite T, andb_false_r. cbn [andb].
    rewrite section_aligned_iff. unfold all_aligned_to, aligned_to.
    change PMD_SIZE with PGDIR_SIZE.
    rewrite Hpal, Haal.
    assert (S0 : size mod PGDIR_SIZE = 0).
    { rewrite Hsize. apply Z.mod_mul. rewrite PGDIR_SIZE_val. lia. }
    rewrite S0. reflexivity. }
  unfold __arm_ioremap_pfn_caller.
  assert (Hh : high_mapping_misaligned pfn = false).
  { unfold high_mapping_misaligned.
    assert (T : (0x100000 <=? pfn) = false) by (apply Z.leb_gt; lia).
    rewrite T. reflexivity. }
  rewrite Hh, Ht, Hasz.
  unfold get_vm_area_caller. rewrite Hpol.
  unfold ioremap_dispatch. rewrite Hsel.
  set (area := {| vm_addr := addr; vm_size := Word.add size PAGE_SIZE;
                  vm_flags := VM_IOREMAP |}).
  set (sa := area_or_flags addr VM_ARM_SECTION_MAPPING
               (set_vmlist (area :: vmlist s) s)).
  destruct (unmap_area_sections_runs cfg fuel addr size sa)
    as (u & _ & Hrun & _); try (word_consts; lia).
  unfold remap_area_sections, bind. rewrite Hrun.
  assert (Hstop : Word.add addr size = addr + Z.of_nat m * PGDIR_SIZE).
  { unfold Word.add. rewrite wrap_small by (word_consts; lia). lia. }
  rewrite Hstop, remap_sections_loop_units by (word_consts; lia).
  cbn [Z.eqb negb].
  set (su := emit _ (sync_active_mm cfg (unmap_units u (pgd_index addr) _))).
  set (s1 := emit _ (section_units m (pgd_index addr) pfn type su)).
  assert (Hres : Word.add 0 addr = addr).
  { unfold Word.add. rewrite Z.add_0_l. apply wrap_small. word_consts. lia. }
  rewrite Hres.
  assert (Hread1 : forall k, 0 <= k < Z.of_nat m ->
            fst (pgd_read s1 (pgd_index addr + k)) <> 0).
  { intros k Hk.
    change (pgd_read s1 (pgd_index addr + k))
      with (pgd_read (section_units m (pgd_index addr) pfn type su)
              (pgd_index addr + k)).
    rewrite section_units_read by exact Hk. cbn [fst].
    intros Hz. apply Z.lor_eq_0_iff in Hz. tauto. }
  assert (Hvm1 : vmlist s1
                 = {| vm_addr := addr; vm_size := Word.add size PAGE_SIZE;
                      vm_flags := Z.lor VM_IOREMAP VM_ARM_SECTION_MAPPING |}
                   :: map (fun a => if vm_addr a =? addr
                                    then {| vm_addr := vm_addr a;
                                            vm_size := vm_size a;
                                            vm_flags :=
                                              Z.lor (vm_flags a)
                                                VM_ARM_SECTION_MAPPING |}
                                    else a) (vmlist s)).
  { subst s1 su. cbn [vmlist emit].
    rewrite section_units_vmlist. cbn [vmlist emit].
    rewrite sync_active_mm_vmlist, unmap_units_vmlist.
    subst sa. unfold area_or_flags, set_vmlist. cbn [vmlist emit map area vm_addr
      vm_size vm_flags].
    rewrite Z.eqb_refl. reflexivity. }
  exists s1. 
  (* the reverse path *)
  assert (Hmask : Z.land PAGE_MASK addr = addr).
  { rewrite land_PAGE_MASK by (word_consts; lia).
    rewrite PGDIR_SIZE_val, PAGE_SIZE_val in *.
    assert (addr mod 4096 = 0); [|lia].
    rewrite <- (Z.mod_mod_divide addr 2097152 4096) by (exists 512; reflexivity).
    rewrite Haal. reflexivity. }
  unfold __iounmap, bind. rewrite Hmask, Hup, Hvm1.
  cbn [find_ioremap_area vm_flags vm_addr].
  change (Z.land (Z.lor VM_IOREMAP VM_ARM_SECTION_MAPPING) VM_IOREMAP =? 0)
    with false.
  rewrite Z.eqb_refl. cbn [negb andb vm_flags vm_addr vm_size].
  change (Z.land (Z.lor VM_IOREMAP VM_ARM_SECTION_MAPPING)
            VM_ARM_SECTION_MAPPING =? 0) with false.
  cbn [negb].
  assert (Hgs : Word.add size PAGE_SIZE = size + PAGE_SIZE).
  { unfold Word.add. apply wrap_small. word_consts. lia. }
  rewrite Hgs.
  destruct (unmap_area_sections_runs cfg fuel addr (size + PAGE_SIZE) s1)
    as (u2 & _ & Hrun2 & Hk2); try (word_consts; lia).
  rewrite Hrun2.
  rewrite Hsize, guard_page_masked in Hk2 by (word_consts; lia).
  eexists. split; [reflexivity|]. split; [exact Hread1|].
  split; [reflexivity|]. split.
  - intros k Hk.
    match goal with |- pgd_read (vunmap _ (emit _ (sync_active_mm _ ?x))) _ = _ =>
      change (pgd_read (sync_active_mm cfg x) (pgd_index addr + k) = (0, 0));
      replace (pgd_read (sync_active_mm cfg x) (pgd_index addr + k))
        with (pgd_read x (pgd_index addr + k))
    end.
    2:{ match goal with |- _ = pgd_read (sync_active_mm _ ?x) _ =>
          destruct (sync_active_mm_global cfg x) as (_ & _ & G3 & _) end.
        unfold pgd_read. rewrite G3. reflexivity. }
    rewrite unmap_units_read.
    assert (k < Z.of_nat u2).
    { apply Hk2; [lia|].
      destruct (Z.eq_dec k 0); [left; assumption | right].
      word_consts. nia. }
    destruct (decide _) as [_|Hn]; [|lia].
    match goal with |- context [pgd_read (emit ?e s1) ?j] =>
      change (pgd_read (emit e s1) j) with (pgd_read s1 j) end.
    specialize (Hread1 k Hk). apply Z.eqb_neq in Hread1.
    rewrite Hread1. reflexivity.
  - intros a Hin. eapply vunmap_releases. exact Hin.
Qed.

Lemma ioremap_iounmap_sections_witness :
  exists s1 s2,
    __arm_ioremap_pfn_caller Sample.up 8 0x10000 0 0x400000 0 Sample.boot
      = Done 0xE0000000 s1
    /\ __iounmap Sample.up 8 0xE0000000 s1 = Done tt s2
    /\ pgd_read s2 1792 = (0, 0)
    /\ pgd_read s2 1793 = (0, 0).
Proof.
  destruct (ioremap_iounmap_sections Sample.up 8 0x10000 0x400000 0
              Sample.MT_DEVICE Sample.boot 0xE0000000 2)
    as (s1 & s2 & Hmap & _ & Hunmap & Hclear & _).
  - reflexivity.
  - reflexivity.
  - vm_compute. discriminate.
  - lia.
  - reflexivity.
  - reflexivity.
  - lia.
  - lia.
  - reflexivity.
  - lia.
  - reflexivity.
  - vm_compute. reflexivity.
  - exists s1, s2. split; [exact Hmap|]. split; [exact Hunmap|]. split.
    + apply (Hclear 0). lia.
    + apply (Hclear 1). lia.
Defined.

(** ** The active address space after a teardown *)

Lemma unmap_pmd_active_mm pgd addr s :
  active_mm (unmap_pmd pgd addr s) = active_mm s.
Proof.
  unfold unmap_pmd. destruct (negb _); [|reflexivity].
  destruct (_ =? _); reflexivity.
Qed.

Lemma unmap_loop_active_mm n :
  forall pgd addr stop s s',
  unmap_area_sections_loop n pgd addr stop s = Done tt s' ->
  active_mm s' = active_mm s.
Proof.
  induction n as [|n IH]; intros pgd addr stop s s' H; [discriminate|].
  cbn [unmap_area_sections_loop] in H.
  destruct (_ <? _).
  - apply IH in H. rewrite H. apply unmap_pmd_active_mm.
  - injection H as <-. apply unmap_pmd_active_mm.
Qed.

(** X11: when [unmap_area_sections] returns, the active address space has
    recorded the current value of the generation counter; if that is not
    the value it had recorded before, its first-level slots over the vmalloc
    window are now those of the kernel table (so a stale use of the range
    torn down faults), and otherwise it is left as it was. *)
Theorem unmap_area_sections_syncs_active_mm cfg fuel virt size s s' :
  unmap_area_sections cfg fuel virt size s = Done tt s' ->
  mm_kvm_seq (active_mm s') = init_kvm_seq s'
  /\ (mm_kvm_seq (active_mm s) <> init_kvm_seq s' ->
      forall i : Z, in_vmalloc_window cfg i ->
      mm_pgd (active_mm s') !! i = init_pgd s' !! i)
  /\ (mm_kvm_seq (active_mm s) = init_kvm_seq s' ->
      active_mm s' = active_mm s).
Proof.
  intros H. unfold unmap_area_sections in H.
  destruct (unmap_area_sections_loop _ _ _ _ _) as [[] s1| |] eqn:L;
    try discriminate.
  injection H as <-.
  apply unmap_loop_active_mm in L. cbn [active_mm emit] in L.
  cbn [active_mm init_kvm_seq init_pgd emit].
  unfold sync_active_mm. rewrite L.
  destruct (negb (mm_kvm_seq (active_mm s) =? init_kvm_seq s1)) eqn:T.
  - apply negb_true_iff, Z.eqb_neq in T.
    cbn [__check_kvm_seq]. unfold check_kvm_seq_pass.
    cbn [fst snd quiet active_mm init_kvm_seq init_pgd set_active_mm
         mm_kvm_seq mm_pgd].
    split; [reflexivity|]. split; [|intros E; contradiction].
    intros _ i Hi. rewrite lookup_memcpy_pgd.
    destruct (decide _) as [_|Hn]; [reflexivity|].
    exfalso. apply Hn. exact Hi.
  - apply negb_false_iff, Z.eqb_eq in T.
    split; [rewrite L; exact T|]. split; [intros Hne; contradiction|].
    intros _. exact L.
Qed.

Lemma unmap_area_sections_syncs_active_mm_witness :
  mm_kvm_seq (active_mm Sample.unmapped) = init_kvm_seq Sample.unmapped
  /\ (mm_kvm_seq (active_mm Sample.mapped) <> init_kvm_seq Sample.unmapped ->
      forall i : Z, in_vmalloc_window Sample.up i ->
      mm_pgd (active_mm Sample.unmapped) !! i
      = init_pgd Sample.unmapped !! i)
  /\ (mm_kvm_seq (active_mm Sample.mapped) = init_kvm_seq Sample.unmapped ->
      active_mm Sample.unmapped = active_mm Sample.mapped).
Proof.
  apply (unmap_area_sections_syncs_active_mm Sample.up 8 0xE0000000 0x200000).
  vm_compute. reflexivity.
Defined.

(** ** One region without strides *)

Lemma single_region_refused pa sz :
  Word.in_range pa -> pa mod PAGE_SIZE = 0 -> sz mod PAGE_SIZE = 0 ->
  strided_region_refused [pa] [sz] None None 0
  = (sz =? 0) || (Word.sub (Word.add pa sz) 1 <? pa).
Proof.
  intros Hp Hpa Hsa. unfold strided_region_refused, stride_or_size.
  change (rd [pa] 0) with pa. change (rd [sz] 0) with sz.
  rewrite xorb_nilpotent.
  assert (Hal : Z.land (Z.lor (Z.lor (Z.lor pa sz) sz) sz)
                  (Word.not PAGE_MASK) = 0).
  { rewrite not_PAGE_MASK, !Z.land_lor_distr_l, !Z.land_ones by lia.
    change (2 ^ 12) with PAGE_SIZE. rewrite Hpa, Hsa. reflexivity. }
  rewrite Hal, Z.ltb_irrefl, Z_mod_same_full.
  cbn [Z.eqb negb andb orb]. rewrite andb_false_r, !orb_false_r.
  assert (Hh : high_mapping_misaligned (__phys_to_pfn pa) = false).
  { unfold high_mapping_misaligned.
    pose proof (phys_to_pfn_below_threshold pa Hp) as B.
    apply Z.leb_gt in B. rewrite B. reflexivity. }
  rewrite Hh.
  destruct ((sz =? 0) || _); reflexivity.
Qed.

Lemma strided_step_is_dispatch cfg fuel addr pfn sz type rest a s :
  strided_step cfg fuel addr 0 sz sz sz type
    {| pfns := pfn :: rest; addr_i := a; err := 0 |} s
  = match
      match select_mapping cfg pfn sz a with
      | Supersections =>
          remap_area_supersections cfg fuel a pfn sz type
            (area_or_flags addr VM_ARM_SECTION_MAPPING s)
      | Sections =>
          remap_area_sections cfg fuel a pfn sz type
            (area_or_flags addr VM_ARM_SECTION_MAPPING s)
      | Pages => remap_area_pages fuel a pfn sz type s
      end
    with
    | Done e s1 =>
        Done {| pfns := Word.add pfn (__phys_to_pfn sz) :: rest;
                addr_i := Word.add a sz; err := e |} s1
    | Bug s1 => Bug s1
    | Diverge => Diverge
    end.
Proof. reflexivity. Qed.

(** X10: called with a single region that has no strides, page-aligned
    base and size, and an allocator that hands out 32-bit addresses, the
    strided mapper does exactly what [__arm_ioremap_caller] does for that
    range: same result, same final state, in every case (refusal, unknown
    type, no space, failure of the mapper, success). *)
Theorem strided_single_region_is_ioremap cfg fuel pa sz mtype s :
  Word.in_range pa -> Word.in_range sz ->
  pa mod PAGE_SIZE = 0 -> sz mod PAGE_SIZE = 0 ->
  (2 <= fuel)%nat ->
  (forall addr, vm_policy cfg (vmlist s) sz = Some addr -> Word.in_range addr) ->
  __arm_multi_strided_ioremap cfg fuel 1 [pa] [sz] None None mtype s
  = __arm_ioremap_caller cfg fuel pa sz mtype s.
Proof.
  intros Hp Hs Hpa Hsa Hf Hpol.
  unfold __arm_multi_strided_ioremap, __arm_ioremap_caller.
  change (MAX_SECTIONS <? 1) with false. cbv iota.
  change (Z.to_nat 1) with 1%nat.
  cbn [strided_validate].
  rewrite single_region_refused by assumption.
  destruct ((sz =? 0) || (Word.sub (Word.add pa sz) 1 <? pa)) eqn:G;
    [reflexivity|].
  apply orb_false_iff in G. destruct G as [G0 _]. apply Z.eqb_neq in G0.
  unfold stride_or_size. change (rd [pa] 0) with pa. change (rd [sz] 0) with sz.
  assert (Htot : Word.add 0 (Word.mul (sz / sz) sz) = sz).
  { rewrite Z_div_same_full by exact G0. unfold Word.add, Word.mul.
    rewrite Z.mul_1_l, Z.add_0_l, !(wrap_small sz Hs). reflexivity. }
  rewrite Htot.
  change (<[0%nat := __phys_to_pfn pa]> (replicate (Z.to_nat MAX_SECTIONS) 0))
    with [__phys_to_pfn pa; 0; 0; 0].
  unfold __arm_ioremap_pfn_caller.
  assert (Hh : high_mapping_misaligned (__phys_to_pfn pa) = false).
  { unfold high_mapping_misaligned.
    pose proof (phys_to_pfn_below_threshold pa Hp) as B.
    apply Z.leb_gt in B. rewrite B. reflexivity. }
  rewrite Hh.
  destruct (get_mem_type cfg mtype) as [type|]; [|reflexivity].
  rewrite land_low_bits, Hpa.
  assert (Hasz : PAGE_ALIGN (Word.add 0 sz) = sz).
  { unfold Word.add. rewrite Z.add_0_l, wrap_small by exact Hs.
    apply PAGE_ALIGN_aligned; [word_consts; lia | | exact Hsa].
    pose proof (Z.div_mod sz PAGE_SIZE) as D.
    rewrite Hsa in D. word_consts. lia. }
  rewrite Hasz.
  unfold get_vm_area_caller.
  destruct (vm_policy cfg (vmlist s) sz) as [addr|] eqn:P; [|reflexivity].
  specialize (Hpol addr eq_refl).
  destruct fuel as [|[|n]]; try lia.
  cbn [strided_regions err]. cbn [Z.eqb negb].
  unfold stride_or_size. change (rd [sz] 0) with sz.
  cbn [strided_steps].
  assert (Hpos : (0 <? sz) = true) by (apply Z.ltb_lt; word_consts; lia).
  rewrite Hpos, strided_step_is_dispatch.
  unfold ioremap_dispatch.
  assert (Hj : Word.add 0 sz = sz).
  { unfold Word.add. rewrite Z.add_0_l. apply wrap_small. exact Hs. }
  assert (Ha : Word.add 0 addr = addr).
  { unfold Word.add. rewrite Z.add_0_l. apply wrap_small. exact Hpol. }
  rewrite Hj, Ha, Z.ltb_irrefl.
  destruct (match select_mapping cfg (__phys_to_pfn pa) sz addr with
            | Supersections => _ | Sections => _ | Pages => _ end)
    as [e s2|s2|]; try reflexivity.
Qed.

Lemma strided_single_region_is_ioremap_witness :
  __arm_multi_strided_ioremap Sample.up 8 1 [0x40000000] [0x4000] None None 0
    Sample.boot
  = __arm_ioremap_caller Sample.up 8 0x40000000 0x4000 0 Sample.boot.
Proof.
  apply strided_single_region_is_ioremap.
  - vm_compute. split; [discriminate | reflexivity].
  - vm_compute. split; [discriminate | reflexivity].
  - reflexivity.
  - reflexivity.
  - lia.
  - intros addr H. injection H as <-.
    vm_compute. split; [discriminate | reflexivity].
Defined.

(** ** The virtual cursor of the strided mapper *)

Lemma wrap_shift x : exists t, Word.wrap x = x + t * Word.modulus.
Proof.
  exists (- (x / Word.modulus)). unfold Word.wrap.
  pose proof (Z.div_mod x Word.modulus) as D.
  rewrite modulus_val in *. specialize (D ltac:(lia)). lia.
Qed.

Lemma strided_step_cursor cfg fuel addr i size pstride vstride type c s c1 s1 :
  strided_step cfg fuel addr i size pstride vstride type c s = Done c1 s1 ->
  addr_i c1 = Word.add (addr_i c) vstride.
Proof.
  unfold strided_step.
  destruct (match select_mapping cfg (rd (pfns c) i) vstride (addr_i c) with
            | Supersections => _ | Sections => _ | Pages => _ end)
    as [e s2|s2|]; try discriminate.
  intros H. injection H as <- _. reflexivity.
Qed.

Lemma strided_steps_cursor cfg fuel addr i size pstride vstride type n :
  forall k j c s c' s',
  0 < pstride -> 0 <= k -> 0 <= j -> j + k * pstride = size ->
  size < Word.modulus ->
  strided_steps cfg fuel n addr i j size pstride vstride type c s
    = Done c' s' ->
  exists t, addr_i c' = addr_i c + k * vstride + t * Word.modulus.
Proof.
  induction n as [|n IH]; intros k j c s c' s' Hp Hk Hj Hsum Hr H;
    [discriminate|].
  cbn [strided_steps] in H.
  destruct (j <? size) eqn:T.
  - apply Z.ltb_lt in T.
    destruct (strided_step cfg fuel addr i size pstride vstride type c s)
      as [c1 s1|s1|] eqn:S1; try discriminate.
    apply strided_step_cursor in S1.
    assert (Hk1 : 1 <= k) by nia.
    assert (Hj' : Word.add j pstride = j + pstride).
    { unfold Word.add. apply wrap_small. word_consts. nia. }
    rewrite Hj' in H.
    apply (IH (k - 1)) in H; try lia.
    destruct H as (t & Ht).
    unfold Word.add in S1.
    destruct (wrap_shift (addr_i c + vstride)) as (t1 & Ht1).
    exists (t + t1). rewrite Ht, S1, Ht1. lia.
  - apply Z.ltb_ge in T. injection H as <- _.
    assert (k = 0) by nia. subst k. exists 0. lia.
Qed.

Lemma strided_regions_cursor cfg fuel addr ps pst vst pa type todo :
  forall i pfns0 tot pfns1 total c s c' s',
  (forall r, Word.in_range (rd ps r)
             /\ Word.in_range (stride_or_size pst ps r)) ->
  strided_validate todo i pa ps pst vst pfns0 tot = Some (pfns1, total) ->
  strided_regions cfg fuel todo addr i ps pst vst type c s = Done c' s' ->
  err c' = 0 ->
  exists t, addr_i c' + tot = addr_i c + total + t * Word.modulus.
Proof.
  induction todo as [|todo IH];
    intros i pfns0 tot pfns1 total c s c' s' Hwords V R E.
  - cbn in V, R. injection V as _ <-. injection R as <- _. exists 0. lia.
  - cbn [strided_validate] in V. cbn [strided_regions] in R.
    destruct (strided_region_refused pa ps pst vst i) eqn:A; [discriminate|].
    destruct (negb (err c =? 0)) eqn:E0.
    { injection R as <- _. rewrite E in E0. discriminate. }
    destruct (strided_steps cfg fuel fuel addr i 0 (rd ps i)
                (stride_or_size pst ps i) (stride_or_size vst ps i) type c s)
      as [c1 s1|s1|] eqn:St; try discriminate.
    destruct (Hwords i) as [Hsz Hps].
    unfold strided_region_refused in A.
    destruct (xorb _ _); [discriminate|].
    destruct (_ || _) eqn:B; [discriminate|].
    apply orb_false_iff in B. destruct B as [B _].
    apply orb_false_iff in B. destruct B as [B Bdiv].
    apply orb_false_iff in B. destruct B as [B _].
    apply orb_false_iff in B. destruct B as [_ Bz].
    apply Z.eqb_neq in Bz.
    assert (Hpne : stride_or_size pst ps i <> 0).
    { unfold stride_or_size. destruct pst as [l|]; [|exact Bz].
      destruct (negb (rd l i =? 0)) eqn:N; [|exact Bz].
      apply negb_true_iff, Z.eqb_neq in N. exact N. }
    apply andb_false_iff in Bdiv.
    assert (Hdiv : rd ps i mod stride_or_size pst ps i = 0).
    { destruct Bdiv as [Bd|Bd]; apply negb_false_iff, Z.eqb_eq in Bd;
        [contradiction | exact Bd]. }
    pose proof (Z.div_mod (rd ps i) (stride_or_size pst ps i) Hpne) as D.
    rewrite Hdiv in D.
    apply (strided_steps_cursor _ _ _ _ _ _ _ _ _
             (rd ps i / stride_or_size pst ps i)) in St.
    + destruct St as (t1 & Ht1).
      destruct (IH _ _ _ _ _ _ _ _ _ Hwords V R E) as (t2 & Ht2).
      unfold Word.add, Word.mul in Ht2.
      destruct (wrap_shift (rd ps i / stride_or_size pst ps i
                            * stride_or_size vst ps i)) as (t3 & Ht3).
      rewrite Ht3 in Ht2.
      destruct (wrap_shift
                  (tot + (rd ps i / stride_or_size pst ps i
                          * stride_or_size vst ps i + t3 * Word.modulus)))
        as (t4 & Ht4).
      rewrite Ht4 in Ht2.
      exists (t1 + t2 - t3 - t4). lia.
    + word_consts. lia.
    + apply Z.div_pos; word_consts; lia.
    + lia.
    + lia.
    + word_consts. lia.
Qed.

(** X12: when the strided mapper has gone through all its regions without
    error, its virtual cursor stands exactly at the base of the area plus
    the total size computed by the validation pass (modulo 2^32): the steps
    of all regions tile the reserved area with nothing left over and
    nothing beyond it. *)
Theorem strided_cursor_covers_area cfg fuel n pa ps pst vst pfns0 pfns1 total
    addr type s :
  (forall r, Word.in_range (rd ps r)
             /\ Word.in_range (stride_or_size pst ps r)) ->
  Word.in_range addr ->
  strided_validate n 0 pa ps pst vst pfns0 0 = Some (pfns1, total) ->
  match strided_regions cfg fuel n addr 0 ps pst vst type
          {| pfns := pfns1; addr_i := addr; err := 0 |} s with
  | Done c s' =>
      err c = 0 -> Word.wrap (addr_i c) = Word.wrap (addr + total)
  | _ => True
  end.
Proof.
  intros Hwords Ha V.
  destruct (strided_regions cfg fuel n addr 0 ps pst vst type _ s)
    as [c s'| |] eqn:R; try exact I.
  intros E.
  destruct (strided_regions_cursor _ _ _ _ _ _ _ _ _ _ _ _ _ _ _ _ _ _
              Hwords V R E) as (t & Ht).
  cbn [addr_i] in Ht. unfold Word.wrap.
  replace (addr_i c) with (addr + total + t * Word.modulus) by lia.
  apply Z.mod_add. rewrite modulus_val. lia.
Qed.

Lemma strided_cursor_covers_area_witness :
  match strided_regions Sample.up 8 2 0xE0000000 0
          [0x4000; 0x2000]
          (Some [0x2000; 0x1000]) (Some [0x1000; 0x1000]) Sample.MT_DEVICE
          {| pfns := [0x40000; 0x50000; 0; 0]; addr_i := 0xE0000000;
             err := 0 |}
          Sample.boot with
  | Done c s' =>
      err c = 0 -> Word.wrap (addr_i c) = Word.wrap (0xE0000000 + 0x4000)
  | _ => True
  end.
Proof.
  apply (strided_cursor_covers_area Sample.up 8 2
           [0x40000000; 0x50000000] [0x4000; 0x2000]
           (Some [0x2000; 0x1000]) (Some [0x1000; 0x1000])
           (replicate 4 0)).
  - intros r. destruct r as [|[|r]].
    + vm_compute. repeat split; discriminate.
    + vm_compute. repeat split; discriminate.
    + split.
      * replace (rd [0x4000; 0x2000] (S (S r))) with 0
          by (unfold rd; destruct r; reflexivity).
        vm_compute. split; [discriminate | reflexivity].
      * replace (stride_or_size (Some [0x2000; 0x1000]) [0x4000; 0x2000]
                   (S (S r))) with 0
          by (unfold stride_or_size, rd; destruct r; reflexivity).
        vm_compute. split; [discriminate | reflexivity].
  - vm_compute. split; [discriminate | reflexivity].
  - vm_compute. reflexivity.
Defined.

(** ** The guard page and the extent of a teardown *)

Lemma unmap_loop_exact m :
  forall n pgd addr s,
  (1 <= m <= n)%nat -> 0 <= addr ->
  addr + Z.of_nat m * PGDIR_SIZE < Word.modulus ->
  unmap_area_sections_loop n pgd addr (addr + Z.of_nat m * PGDIR_SIZE) s
  = Done tt (unmap_units m pgd s).
Proof.
  induction m as [|m IH]; intros n pgd addr s Hm Ha Hr; [lia|].
  destruct n as [|n]; [lia|].
  cbn [unmap_area_sections_loop unmap_units].
  assert (Hadd : Word.add addr PGDIR_SIZE = addr + PGDIR_SIZE).
  { unfold Word.add. apply wrap_small. word_consts. lia. }
  rewrite Hadd.
  change (unmap_pmd pgd addr s) with (unmap_pmd pgd 0 s).
  destruct m as [|m].
  - replace (addr + Z.of_nat 1 * PGDIR_SIZE) with (addr + PGDIR_SIZE) by lia.
    rewrite Z.ltb_irrefl. reflexivity.
  - assert (T : (addr + PGDIR_SIZE <? addr + Z.of_nat (S (S m)) * PGDIR_SIZE)
                = true) by (apply Z.ltb_lt; word_consts; lia).
    rewrite T.
    replace (addr + Z.of_nat (S (S m)) * PGDIR_SIZE)
      with (addr + PGDIR_SIZE + Z.of_nat (S m) * PGDIR_SIZE) by lia.
    apply IH; try (word_consts; lia).
Qed.

(** X13: given the size of an area of [m] 2MB units plus its guard page,
    [unmap_area_sections] masks the guard page off and tears down exactly
    [m] first-level slots: each of them ends with an empty first entry, and
    no slot outside them is touched. *)
Theorem unmap_area_sections_extent cfg fuel virt s m :
  0 <= virt -> (1 <= m <= fuel)%nat ->
  virt + Z.of_nat m * PGDIR_SIZE + PAGE_SIZE < Word.modulus ->
  exists s',
    unmap_area_sections cfg fuel virt (Z.of_nat m * PGDIR_SIZE + PAGE_SIZE) s
      = Done tt s'
    /\ (forall j, pgd_index virt <= j < pgd_index virt + Z.of_nat m ->
        fst (pgd_read s' j) = 0)
    /\ (forall j, ~ (pgd_index virt <= j < pgd_index virt + Z.of_nat m) ->
        pgd_read s' j = pgd_read s j).
Proof.
  intros Hv Hm Hr. unfold unmap_area_sections.
  rewrite guard_page_masked by (word_consts; lia).
  assert (Hstop : Word.add virt (Z.of_nat m * PGDIR_SIZE)
                  = virt + Z.of_nat m * PGDIR_SIZE).
  { unfold Word.add. apply wrap_small. word_consts. lia. }
  rewrite Hstop, unmap_loop_exact by (word_consts; lia).
  eexists. split; [reflexivity|].
  match goal with |- context [sync_active_mm cfg ?x] =>
    destruct (sync_active_mm_global cfg x) as (_ & _ & G3 & _) end.
  assert (Hrd : forall j,
            pgd_read
              (emit (flush_tlb_kernel_range virt
                       (virt + Z.of_nat m * PGDIR_SIZE))
                 (sync_active_mm cfg
                    (unmap_units m (pgd_index virt)
                       (emit (flush_cache_vunmap virt
                                (virt + Z.of_nat m * PGDIR_SIZE)) s)))) j
            = if decide (pgd_index virt <= j < pgd_index virt + Z.of_nat m)
              then (if fst (pgd_read s j) =? 0 then pgd_read s j else (0, 0))
              else pgd_read s j).
  { intros j. unfold pgd_read at 1. cbn [init_pgd emit]. rewrite G3.
    apply (unmap_units_read m (pgd_index virt)
             (emit (flush_cache_vunmap virt
                      (virt + Z.of_nat m * PGDIR_SIZE)) s) j). }
  split.
  - intros j Hj. rewrite Hrd.
    destruct (decide _) as [_|Hn]; [|contradiction].
    destruct (fst (pgd_read s j) =? 0) eqn:Z0; [|reflexivity].
    apply Z.eqb_eq in Z0. exact Z0.
  - intros j Hj. rewrite Hrd.
    destruct (decide _) as [Hy|_]; [contradiction | reflexivity].
Qed.

Lemma unmap_area_sections_extent_witness :
  exists s',
    unmap_area_sections Sample.up 8 0xE0000000 (0x200000 + 0x1000)
      Sample.starved = Done tt s'
    /\ fst (pgd_read s' 1792) = 0
    /\ pgd_read s' 1793 = pgd_read Sample.starved 1793.
Proof.
  destruct (unmap_area_sections_extent Sample.up 8 0xE0000000 Sample.starved 1)
    as (s' & Hrun & Hin & Hout).
  - lia.
  - lia.
  - vm_compute. reflexivity.
  - exists s'. split; [exact Hrun|]. split.
    + apply Hin. change (pgd_index 0xE0000000) with 1792. lia.
    + apply Hout. change (pgd_index 0xE0000000) with 1792. lia.
Defined.

(** ** Mapping with supersections and unmapping again *)

Lemma super_pmd_val_nonzero pfn type : super_pmd_val pfn type <> 0.
Proof.
  unfold super_pmd_val. intros H.
  apply Z.lor_eq_0_iff in H. destruct H as [H _].
  apply Z.lor_eq_0_iff in H. destruct H as [_ H]. discriminate H.
Qed.

(** X9: on a uniprocessor build with [DOMAIN_IO] 0 and a CPU that has
    the extended mode, a request at or above 4GB whose physical base, size
    and virtual base are 16MB aligned is mapped with supersections: eight
    first-level slots per unit, each holding the unit's supersection entry
    twice; and [__iounmap] of the address returned empties every one of
    these slots and releases the area. *)
Theorem ioremap_iounmap_supersections cfg fuel pfn size mtype type s addr m :
  CONFIG_SMP cfg = false -> DOMAIN_IO cfg = 0 -> cpu_has_xp cfg = true ->
  get_mem_type cfg mtype = Some type ->
  Word.in_range pfn -> 0x100000 <= pfn ->
  (pfn * PAGE_SIZE) mod SUPERSECTION_SIZE = 0 ->
  size = Z.of_nat m * SUPERSECTION_SIZE ->
  (1 <= m)%nat -> (8 * m + 1 <= fuel)%nat ->
  vm_policy cfg (vmlist s) size = Some addr ->
  0 <= addr -> addr mod SUPERSECTION_SIZE = 0 ->
  addr + size + PAGE_SIZE + PGDIR_SIZE < Word.modulus ->
  exists s1 s2,
    __arm_ioremap_pfn_caller cfg fuel pfn 0 size mtype s = Done addr s1
    /\ (forall k, 0 <= k < 8 * Z.of_nat m ->
        let v := super_pmd_val
                   (Word.wrap (pfn + k / 8
                                     * Z.shiftr SUPERSECTION_SIZE PAGE_SHIFT))
                   type in
        pgd_read s1 (pgd_index addr + k) = (v, v))
    /\ __iounmap cfg fuel addr s1 = Done tt s2
    /\ (forall k, 0 <= k < 8 * Z.of_nat m ->
        pgd_read s2 (pgd_index addr + k) = (0, 0))
    /\ (forall a, In a (vmlist s2) -> vm_addr a <> addr).
Proof.
  intros Hup Hdom Hxp Ht Hp Hhigh Hpal Hsize Hm Hf Hpol Ha Haal Hr.
  assert (SS : SUPERSECTION_SIZE = 16777216) by reflexivity.
  assert (Hsize2 : size = Z.of_nat (8 * m) * PGDIR_SIZE).
  { rewrite Hsize, SS, PGDIR_SIZE_val. lia. }
  assert (Hsz_al : size mod PAGE_SIZE = 0).
  { rewrite Hsize, SS, PAGE_SIZE_val.
    replace (Z.of_nat m * 16777216) with (Z.of_nat m * 4096 * 4096) by lia.
    apply Z.mod_mul. lia. }
  assert (Hasz : PAGE_ALIGN (Word.add 0 size) = size).
  { unfold Word.add. rewrite Z.add_0_l, wrap_small by (word_consts; lia).
    apply PAGE_ALIGN_aligned;
      [word_consts; lia | word_consts; lia | exact Hsz_al]. }
  assert (Hsel : select_mapping cfg pfn size addr = Supersections).
  { unfold select_mapping. rewrite Hup, supersection_test_iff, Hdom, Hxp.
    apply Z.leb_le in Hhigh. rewrite Hhigh.
    unfold all_aligned_to, aligned_to. rewrite Hpal, Haal.
    assert (S0 : size mod SUPERSECTION_SIZE = 0).
    { rewrite Hsize. apply Z.mod_mul. rewrite SS. lia. }
    rewrite S0. reflexivity. }
  assert (Hh : high_mapping_misaligned pfn = false).
  { destruct (high_mapping_misaligned pfn) eqn:E; [|reflexivity].
    apply high_mapping_misaligned_iff in E. tauto. }
  unfold __arm_ioremap_pfn_caller.
  rewrite Hh, Ht, Hasz.
  unfold get_vm_area_caller. rewrite Hpol.
  unfold ioremap_dispatch. rewrite Hsel.
  set (area := {| vm_addr := addr; vm_size := Word.add size PAGE_SIZE;
                  vm_flags := VM_IOREMAP |}).
  set (sa := area_or_flags addr VM_ARM_SECTION_MAPPING
               (set_vmlist (area :: vmlist s) s)).
  destruct (unmap_area_sections_runs cfg fuel addr size sa)
    as (u & _ & Hrun & _); try (word_consts; lia).
  unfold remap_area_supersections, bind. rewrite Hrun.
  assert (Hstop : Word.add addr size
                  = addr + Z.of_nat m * SUPERSECTION_SIZE).
  { unfold Word.add. rewrite wrap_small by (word_consts; lia). lia. }
  rewrite Hstop, remap_supersections_loop_units
    by (rewrite ?SS in *; word_consts; lia).
  cbn [Z.eqb negb].
  set (su := emit _ (sync_active_mm cfg (unmap_units u (pgd_index addr) _))).
  set (s1 := emit _ (supersection_units m (pgd_index addr) addr pfn type su)).
  assert (Hres : Word.add 0 addr = addr).
  { unfold Word.add. rewrite Z.add_0_l. apply wrap_small. word_consts. lia. }
  rewrite Hres.
  assert (Hread1 : forall k, 0 <= k < 8 * Z.of_nat m ->
            pgd_read s1 (pgd_index addr + k)
            = (super_pmd_val
                 (Word.wrap (pfn + k / 8
                                   * Z.shiftr SUPERSECTION_SIZE PAGE_SHIFT))
                 type,
               super_pmd_val
                 (Word.wrap (pfn + k / 8
                                   * Z.shiftr SUPERSECTION_SIZE PAGE_SHIFT))
                 type)).
  { intros k Hk.
    change (pgd_read s1 (pgd_index addr + k))
      with (pgd_read (supersection_units m (pgd_index addr) addr pfn type su)
              (pgd_index addr + k)).
    apply supersection_units_read; assumption. }
  assert (Hvm1 : exists rest,
            vmlist s1
            = {| vm_addr := addr; vm_size := Word.add size PAGE_SIZE;
                 vm_flags := Z.lor VM_IOREMAP VM_ARM_SECTION_MAPPING |}
              :: rest).
  { eexists. subst s1 su. cbn [vmlist emit].
    assert (Hsv : forall n pgd a p t x,
              vmlist (supersection_units n pgd a p t x) = vmlist x).
    { clear. induction n as [|n IH]; intros pgd a p t x; [reflexivity|].
      cbn [supersection_units supersection_fill]. rewrite IH. reflexivity. }
    rewrite Hsv. cbn [vmlist emit].
    rewrite sync_active_mm_vmlist, unmap_units_vmlist.
    subst sa. unfold area_or_flags, set_vmlist.
    cbn [vmlist emit map area vm_addr vm_size vm_flags].
    rewrite Z.eqb_refl. reflexivity. }
  destruct Hvm1 as (rest & Hvm1).
  exists s1.
  assert (Hmask : Z.land PAGE_MASK addr = addr).
  { rewrite land_PAGE_MASK by (word_consts; lia).
    rewrite SS, PAGE_SIZE_val in *.
    assert (addr mod 4096 = 0); [|lia].
    rewrite <- (Z.mod_mod_divide addr 16777216 4096)
      by (exists 4096; reflexivity).
    rewrite Haal. reflexivity. }
  unfold __iounmap, bind. rewrite Hmask, Hup, Hvm1.
  cbn [find_ioremap_area vm_flags vm_addr].
  change (Z.land (Z.lor VM_IOREMAP VM_ARM_SECTION_MAPPING) VM_IOREMAP =? 0)
    with false.
  rewrite Z.eqb_refl. cbn [negb andb vm_flags vm_addr vm_size].
  change (Z.land (Z.lor VM_IOREMAP VM_ARM_SECTION_MAPPING)
            VM_ARM_SECTION_MAPPING =? 0) with false.
  cbn [negb].
  assert (Hgs : Word.add size PAGE_SIZE = size + PAGE_SIZE).
  { unfold Word.add. apply wrap_small. word_consts. lia. }
  rewrite Hgs.
  destruct (unmap_area_sections_runs cfg fuel addr (size + PAGE_SIZE) s1)
    as (u2 & _ & Hrun2 & Hk2); try (word_consts; lia).
  rewrite Hrun2.
  rewrite Hsize2, guard_page_masked in Hk2 by (word_consts; lia).
  eexists. split; [reflexivity|]. split; [exact Hread1|].
  split; [reflexivity|]. split.
  - intros k Hk.
    match goal with |- pgd_read (vunmap _ (emit _ (sync_active_mm _ ?x))) _ = _ =>
      change (pgd_read (sync_active_mm cfg x) (pgd_index addr + k) = (0, 0));
      replace (pgd_read (sync_active_mm cfg x) (pgd_index addr + k))
        with (pgd_read x (pgd_index addr + k))
    end.
    2:{ match goal with |- _ = pgd_read (sync_active_mm _ ?x) _ =>
          destruct (sync_active_mm_global cfg x) as (_ & _ & G3 & _) end.
        unfold pgd_read. rewrite G3. reflexivity. }
    rewrite unmap_units_read.
    assert (k < Z.of_nat u2).
    { apply Hk2; [lia|].
      destruct (Z.eq_dec k 0); [left; assumption | right].
      word_consts. nia. }
    destruct (decide _) as [_|Hn]; [|lia].
    match goal with |- context [pgd_read (emit ?e s1) ?j] =>
      change (pgd_read (emit e s1) j) with (pgd_read s1 j) end.
    rewrite (Hread1 k Hk). cbn [fst].
    pose proof (super_pmd_val_nonzero
                  (Word.wrap (pfn + k / 8
                                    * Z.shiftr SUPERSECTION_SIZE PAGE_SHIFT))
                  type) as Hnz.
    apply Z.eqb_neq in Hnz. rewrite Hnz. reflexivity.
  - intros a Hin. eapply vunmap_releases. exact Hin.
Qed.

Lemma ioremap_iounmap_supersections_witness :
  exists s1 s2,
    __arm_ioremap_pfn_caller Sample.up 16 0x100000 0 0x1000000 0 Sample.boot
      = Done 0xE0000000 s1
    /\ pgd_read s1 1795 = (0x140412, 0x140412)
    /\ __iounmap Sample.up 16 0xE0000000 s1 = Done tt s2
    /\ pgd_read s2 1795 = (0, 0).
Proof.
  destruct (ioremap_iounmap_supersections Sample.up 16 0x100000 0x1000000 0
              Sample.MT_DEVICE Sample.boot 0xE0000000 1)
    as (s1 & s2 & Hmap & Hfill & Hunmap & Hclear & _).
  - reflexivity.
  - reflexivity.
  - reflexivity.
  - reflexivity.
  - vm_compute. split; [discriminate | reflexivity].
  - lia.
  - reflexivity.
  - reflexivity.
  - lia.
  - lia.
  - reflexivity.
  - lia.
  - reflexivity.
  - vm_compute. reflexivity.
  - exists s1, s2. split; [exact Hmap|]. split; [|split; [exact Hunmap|]].
    + apply (Hfill 3). lia.
    + apply (Hclear 3). lia.
Defined.

(** ** A refresh repeated *)

Lemma memcpy_pgd_twice dst src first count :
  memcpy_pgd (memcpy_pgd dst src first count) src first count
  = memcpy_pgd dst src first count.
Proof.
  apply map_eq. intros i. rewrite !lookup_memcpy_pgd.
  destruct (decide _); reflexivity.
Qed.

(** X14: an undisturbed refresh is idempotent: running [__check_kvm_seq]
    again on the address space it has just brought up to date, with the
    kernel state unchanged, gives the same address space and state. *)
Theorem check_kvm_seq_idempotent cfg s mm :
  __check_kvm_seq cfg []
    (fst (__check_kvm_seq cfg [] s mm)) (snd (__check_kvm_seq cfg [] s mm))
  = __check_kvm_seq cfg [] s mm.
Proof.
  cbn [__check_kvm_seq]. unfold check_kvm_seq_pass.
  cbn [fst snd quiet mm_pgd mm_kvm_seq].
  rewrite memcpy_pgd_twice. reflexivity.
Qed.

(** ** What a section mapping leaves alone *)

Lemma section_units_free_pages m :
  forall pgd pfn type s,
  free_pages (section_units m pgd pfn type s) = free_pages s.
Proof.
  induction m as [|m IH]; intros pgd pfn type s; [reflexivity|].
  cbn [section_units]. rewrite IH. reflexivity.
Qed.

Lemma units_masked m :
  0 <= m -> m * PGDIR_SIZE < Word.modulus ->
  Z.land (m * PGDIR_SIZE) (Word.not (SZ_1M - 1)) = m * PGDIR_SIZE.
Proof.
  intros Hm Hr. rewrite land_1M_mask by (word_consts; lia).
  rewrite PGDIR_SIZE_val. change SZ_1M with 1048576.
  replace (m * 2097152) with (m * 2 * 1048576) by lia.
  rewrite Z.mod_mul by lia. lia.
Qed.

(** X15: [remap_area_sections] over [m] 2MB units returns 0 and is
    confined to them: no first-level slot outside the [m] slots of the
    range is changed, and no page is taken from the table allocator. *)
Theorem remap_area_sections_confined cfg fuel virt pfn type s m :
  0 <= virt -> (1 <= m <= fuel)%nat ->
  virt + Z.of_nat m * PGDIR_SIZE + PGDIR_SIZE < Word.modulus ->
  exists s',
    remap_area_sections cfg fuel virt pfn (Z.of_nat m * PGDIR_SIZE) type s
      = Done 0 s'
    /\ (forall j, ~ (pgd_index virt <= j < pgd_index virt + Z.of_nat m) ->
        pgd_read s' j = pgd_read s j)
    /\ (forall t, In t (free_pages s) -> In t (free_pages s')).
Proof.
  intros Hv Hm Hr. unfold remap_area_sections, bind, unmap_area_sections.
  rewrite units_masked by (word_consts; lia).
  assert (Hstop : Word.add virt (Z.of_nat m * PGDIR_SIZE)
                  = virt + Z.of_nat m * PGDIR_SIZE).
  { unfold Word.add. apply wrap_small. word_consts. lia. }
  rewrite Hstop, unmap_loop_exact by (word_consts; lia).
  rewrite remap_sections_loop_units by (word_consts; lia).
  eexists. split; [reflexivity|].
  match goal with |- context [sync_active_mm cfg ?x] =>
    destruct (sync_active_mm_global cfg x) as (_ & _ & G3 & _ & G5 & _) end.
  split.
  - intros j Hj. rewrite section_units_outside by exact Hj.
    unfold pgd_read at 1. cbn [init_pgd emit]. rewrite G3.
    pose proof (unmap_units_read m (pgd_index virt)
                  (emit (flush_cache_vunmap virt
                           (virt + Z.of_nat m * PGDIR_SIZE)) s) j) as U.
    unfold pgd_read at 1 in U. rewrite U.
    destruct (decide _) as [Hy|_]; [contradiction | reflexivity].
  - intros t Ht. rewrite section_units_free_pages.
    cbn [free_pages emit]. rewrite G5.
    apply unmap_units_keeps_free. exact Ht.
Qed.

Lemma remap_area_sections_confined_witness :
  exists s',
    remap_area_sections Sample.up 8 0xE0000000 0x10000 (Z.of_nat 1 * PGDIR_SIZE)
      Sample.MT_DEVICE Sample.starved = Done 0 s'
    /\ pgd_read s' 1793 = pgd_read Sample.starved 1793.
Proof.
  destruct (remap_area_sections_confined Sample.up 8 0xE0000000 0x10000
              Sample.MT_DEVICE Sample.starved 1) as (s' & Hrun & Hout & _).
  - lia.
  - lia.
  - vm_compute. reflexivity.
  - exists s'. split; [exact Hrun|].
    apply Hout. change (pgd_index 0xE0000000) with 1792. lia.
Defined.

(** ** C8: the generation counter and the entries cleared *)







